(** * RecEthers: a reconnecting wrapper around an ethers.js WebSocketProvider

    Shallow embedding of [src/ReconnectableEthers.js].

    The class is event driven: every piece of its code runs as one task of
    the Node.js event loop (a call from the application, a timer callback,
    a signal of the websocket or of the provider).  A task runs to
    completion, together with the promise continuations it makes runnable,
    before the next task starts.  The embedding therefore has

    - a record for the fields of [this] and one for the runtime objects the
      class creates (sockets, intervals, promises, the emitted events);
    - every method as a computation in a state-and-exception monad, written
      statement by statement after the source;
    - one [Action] per kind of task and a total [step] function. *)

From stdpp Require Import base gmap strings list.

Open Scope Z_scope.

(** ** Data *)

Definition TimerId := nat.
Definition PromiseId := nat.
Definition Handle := nat.

(** The four event names the class emits. *)
Inductive EventName := connected | disconnected | pending | block.

Global Instance EventName_eq_dec : EqDecision EventName.
Proof. solve_decision. Defined.

(** Argument passed along with an emitted event. *)
Inductive Arg :=
  | NoArg
  | TxHash (txHash : string)
  | BlockNum (blockNum : Z).

(** A listener registered with [on]: it is identified by [lid] and either
    returns or throws when it is invoked.  Listeners are observers: they do
    not call back into the object. *)
Record Listener := { lid : nat; throws : bool }.

Inductive LogItem :=
  | Emitted (name : EventName) (arg : Arg)
  | Invoked (name : EventName) (l : nat).

Global Instance Arg_eq_dec : EqDecision Arg.
Proof. solve_decision. Defined.
Global Instance LogItem_eq_dec : EqDecision LogItem.
Proof. solve_decision. Defined.

(** The callbacks given to [setInterval] in the source, with the variables
    each closure captures.
    - [ConnectRetry p]: the interval of [connect] (line 128); [p] is the
      promise whose [resolve] it holds.
    - [AttemptPoll owner p]: the interval of [__establishConnection]
      (line 105), started by a tick of the interval [owner]; when it resolves
      its promise the awaiting tick of [connect] continues with
      [clearInterval(owner)] and [resolve] of [p].
    - [KeepAlive]: the interval of [__customOpen] (line 175).
    - [WaitPoll p]: the interval of [waitConnection] (line 226). *)
Inductive Timer :=
  | ConnectRetry (p : PromiseId)
  | AttemptPoll (owner : TimerId) (p : PromiseId)
  | KeepAlive
  | WaitPoll (p : PromiseId).

(** [readyState] values of a websocket. *)
Definition CONNECTING : Z := 0.
Definition OPEN : Z := 1.
Definition CLOSING : Z := 2.
Definition CLOSED : Z := 3.

(** The [_websocket] of a constructed [WebSocketProvider]. *)
Record Socket := { sock_uri : option string; readyState : Z }.

Set Primitive Projections.

(** Fields of [this].  [undefined] is [None].  [lock] is the entry of the
    AsyncLock for the key "startConnection": [None] when the key is free,
    [Some q] when it is held and the tasks of [q] wait for it. *)
Record RecEthers := {
  uri : option string;
  MAX_TIMEOUT : option Z;
  lock : option (list PromiseId);
  _isConnected : bool;
  _lastConnectionResponse : Z;
  _lastTransaction : option Z;
  provider : option Handle;
  __keepAliveInterval : option TimerId;
  listeners : list (EventName * Listener)
}.

(** Objects created by the class and what the outside can observe. *)
Record Runtime := {
  sockets : list Socket;           (* one per [new WebSocketProvider], by handle *)
  closeCalls : list Handle;        (* [_websocket.close()] calls made *)
  timers : gmap TimerId Timer;     (* active intervals *)
  nextTimer : TimerId;
  nextPromise : PromiseId;
  resolved : gset PromiseId;       (* promises whose [resolve] ran *)
  log : list LogItem               (* emissions and listener invocations *)
}.

Record State := { this : RecEthers; rt : Runtime }.

Unset Primitive Projections.

(** Field updates. *)
Definition with_uri v (o : RecEthers) : RecEthers :=
  {| uri := v; MAX_TIMEOUT := MAX_TIMEOUT o; lock := lock o;
     _isConnected := _isConnected o;
     _lastConnectionResponse := _lastConnectionResponse o;
     _lastTransaction := _lastTransaction o; provider := provider o;
     __keepAliveInterval := __keepAliveInterval o; listeners := listeners o |}.
Definition with_MAX_TIMEOUT v (o : RecEthers) : RecEthers :=
  {| uri := uri o; MAX_TIMEOUT := v; lock := lock o;
     _isConnected := _isConnected o;
     _lastConnectionResponse := _lastConnectionResponse o;
     _lastTransaction := _lastTransaction o; provider := provider o;
     __keepAliveInterval := __keepAliveInterval o; listeners := listeners o |}.
Definition with_lock v (o : RecEthers) : RecEthers :=
  {| uri := uri o; MAX_TIMEOUT := MAX_TIMEOUT o; lock := v;
     _isConnected := _isConnected o;
     _lastConnectionResponse := _lastConnectionResponse o;
     _lastTransaction := _lastTransaction o; provider := provider o;
     __keepAliveInterval := __keepAliveInterval o; listeners := listeners o |}.
Definition with_isConnected v (o : RecEthers) : RecEthers :=
  {| uri := uri o; MAX_TIMEOUT := MAX_TIMEOUT o; lock := lock o;
     _isConnected := v;
     _lastConnectionResponse := _lastConnectionResponse o;
     _lastTransaction := _lastTransaction o; provider := provider o;
     __keepAliveInterval := __keepAliveInterval o; listeners := listeners o |}.
Definition with_lastConnectionResponse v (o : RecEthers) : RecEthers :=
  {| uri := uri o; MAX_TIMEOUT := MAX_TIMEOUT o; lock := lock o;
     _isConnected := _isConnected o;
     _lastConnectionResponse := v;
     _lastTransaction := _lastTransaction o; provider := provider o;
     __keepAliveInterval := __keepAliveInterval o; listeners := listeners o |}.
Definition with_lastTransaction v (o : RecEthers) : RecEthers :=
  {| uri := uri o; MAX_TIMEOUT := MAX_TIMEOUT o; lock := lock o;
     _isConnected := _isConnected o;
     _lastConnectionResponse := _lastConnectionResponse o;
     _lastTransaction := v; provider := provider o;
     __keepAliveInterval := __keepAliveInterval o; listeners := listeners o |}.
Definition with_provider v (o : RecEthers) : RecEthers :=
  {| uri := uri o; MAX_TIMEOUT := MAX_TIMEOUT o; lock := lock o;
     _isConnected := _isConnected o;
     _lastConnectionResponse := _lastConnectionResponse o;
     _lastTransaction := _lastTransaction o; provider := v;
     __keepAliveInterval := __keepAliveInterval o; listeners := listeners o |}.
Definition with_keepAliveInterval v (o : RecEthers) : RecEthers :=
  {| uri := uri o; MAX_TIMEOUT := MAX_TIMEOUT o; lock := lock o;
     _isConnected := _isConnected o;
     _lastConnectionResponse := _lastConnectionResponse o;
     _lastTransaction := _lastTransaction o; provider := provider o;
     __keepAliveInterval := v; listeners := listeners o |}.
Definition with_listeners v (o : RecEthers) : RecEthers :=
  {| uri := uri o; MAX_TIMEOUT := MAX_TIMEOUT o; lock := lock o;
     _isConnected := _isConnected o;
     _lastConnectionResponse := _lastConnectionResponse o;
     _lastTransaction := _lastTransaction o; provider := provider o;
     __keepAliveInterval := __keepAliveInterval o; listeners := v |}.

Definition with_sockets v (r : Runtime) : Runtime :=
  {| sockets := v; closeCalls := closeCalls r; timers := timers r;
     nextTimer := nextTimer r; nextPromise := nextPromise r;
     resolved := resolved r; log := log r |}.
Definition with_closeCalls v (r : Runtime) : Runtime :=
  {| sockets := sockets r; closeCalls := v; timers := timers r;
     nextTimer := nextTimer r; nextPromise := nextPromise r;
     resolved := resolved r; log := log r |}.
Definition with_timers v (r : Runtime) : Runtime :=
  {| sockets := sockets r; closeCalls := closeCalls r; timers := v;
     nextTimer := nextTimer r; nextPromise := nextPromise r;
     resolved := resolved r; log := log r |}.
Definition with_nextTimer v (r : Runtime) : Runtime :=
  {| sockets := sockets r; closeCalls := closeCalls r; timers := timers r;
     nextTimer := v; nextPromise := nextPromise r;
     resolved := resolved r; log := log r |}.
Definition with_nextPromise v (r : Runtime) : Runtime :=
  {| sockets := sockets r; closeCalls := closeCalls r; timers := timers r;
     nextTimer := nextTimer r; nextPromise := v;
     resolved := resolved r; log := log r |}.
Definition with_resolved v (r : Runtime) : Runtime :=
  {| sockets := sockets r; closeCalls := closeCalls r; timers := timers r;
     nextTimer := nextTimer r; nextPromise := nextPromise r;
     resolved := v; log := log r |}.
Definition with_log v (r : Runtime) : Runtime :=
  {| sockets := sockets r; closeCalls := closeCalls r; timers := timers r;
     nextTimer := nextTimer r; nextPromise := nextPromise r;
     resolved := resolved r; log := v |}.

Definition on_this (f : RecEthers -> RecEthers) (s : State) : State :=
  {| this := f (this s); rt := rt s |}.
Definition on_rt (f : Runtime -> Runtime) (s : State) : State :=
  {| this := this s; rt := f (rt s) |}.

(** ** The monad of a task: state and JavaScript exceptions *)

Inductive JsError :=
  | TypeError            (* property read or written on [undefined] *)
  | ReferenceError       (* read of an undeclared global *)
  | SyntaxError          (* an address the transport library does not accept *)
  | ListenerError (l : nat).  (* thrown by the listener [l] *)

Inductive Completion (A : Type) :=
  | Normal (a : A)
  | Throw (e : JsError).
Arguments Normal {A} a.
Arguments Throw {A} e.

Definition M (A : Type) : Type := State -> Completion A * State.

Definition ret {A} (a : A) : M A := fun s => (Normal a, s).
Definition bind {A B} (m : M A) (k : A -> M B) : M B :=
  fun s => match m s with
           | (Normal a, s') => k a s'
           | (Throw e, s') => (Throw e, s')
           end.
Definition throw {A} (e : JsError) : M A := fun s => (Throw e, s).
Definition gets {A} (f : State -> A) : M A := fun s => (Normal (f s), s).
Definition modify (f : State -> State) : M unit := fun s => (Normal tt, f s).

Notation "'let!' x ':=' m 'in' k" := (bind m (fun x => k))
  (at level 10, x name, m at level 100, k at level 200).
Notation "m '>>' k" := (bind m (fun _ => k))
  (at level 90, right associativity).

Definition when (b : bool) (m : M unit) : M unit := if b then m else ret tt.

(** Reading and assigning a field of [this]. *)
Definition get {A} (f : RecEthers -> A) : M A := gets (fun s => f (this s)).
Definition assign (f : RecEthers -> RecEthers) : M unit := modify (on_this f).

(** ** The transport library

    The part of the library the class depends on without the source saying
    what it is: for an address string, [socket_url] is [None] when the
    constructor of a provider rejects it, and the URL of the socket it opens
    otherwise. *)
Class TransportAdapter := { socket_url : string -> option string }.

Section Model.
Context {T : TransportAdapter}.

(** ** Runtime primitives *)

(** [setInterval(callback, 100)]: the interval becomes active under a fresh
    identifier, which is returned. *)
Definition setInterval (t : Timer) : M TimerId :=
  let! id := gets (fun s => nextTimer (rt s)) in
  modify (on_rt (fun r => with_nextTimer (S id) (with_timers (<[id := t]> (timers r)) r))) >>
  ret id.

(** [clearInterval(id)]: no effect when [id] is not active. *)
Definition clearInterval (id : TimerId) : M unit :=
  modify (on_rt (fun r => with_timers (delete id (timers r)) r)).

(** [new Promise(...)]: a fresh pending promise. *)
Definition newPromise : M PromiseId :=
  let! p := gets (fun s => nextPromise (rt s)) in
  modify (on_rt (with_nextPromise (S p))) >>
  ret p.

(** The [resolve] function of the promise [p]. *)
Definition resolve (p : PromiseId) : M unit :=
  modify (on_rt (fun r => with_resolved ({[p]} ∪ resolved r) r)).

Definition log_append (i : LogItem) : M unit :=
  modify (on_rt (fun r => with_log (log r ++ [i]) r)).

(** [new ethers.providers.WebSocketProvider(uri)].  The constructor belongs
    to the transport library, which is not part of the source, and what it
    does depends on the address it is given:
    - [undefined]: it has no socket to set its handlers on and throws a
      TypeError;
    - a string the library does not accept: it throws;
    - a string it accepts: a new socket in state CONNECTING, whose handle is
      its index; [sock_uri] is the URL the library connects to (for the empty
      string the library takes its default URL).
    Which strings are accepted, and the URL each one stands for, is the
    parameter [socket_url] of the development. *)
Definition new_WebSocketProvider (u : option string) : M Handle :=
  match u with
  | None => throw TypeError
  | Some address =>
      match socket_url address with
      | None => throw SyntaxError
      | Some url =>
          let! h := gets (fun s => length (sockets (rt s))) in
          modify (on_rt (fun r =>
            with_sockets
              (sockets r ++ [{| sock_uri := Some url; readyState := CONNECTING |}]) r)) >>
          ret h
      end
  end.

(** [this.provider._websocket.close()]: a TypeError when [this.provider] is
    [undefined]; otherwise the request is handed to the transport, which
    signals [close] later. *)
Definition websocket_close : M unit :=
  let! pr := get provider in
  match pr with
  | None => throw TypeError
  | Some h => modify (on_rt (fun r => with_closeCalls (closeCalls r ++ [h]) r))
  end.

(** ** EventEmitter *)

Definition listeners_of (name : EventName) (ls : list (EventName * Listener)) : list Listener :=
  snd <$> filter (fun x => fst x = name) ls.

(** The listeners run synchronously in registration order; an exception of
    a listener leaves [emit] at once. *)
Fixpoint call_listeners (name : EventName) (ls : list Listener) : M unit :=
  match ls with
  | [] => ret tt
  | l :: rest =>
      log_append (Invoked name (lid l)) >>
      if throws l then throw (ListenerError (lid l))
      else call_listeners name rest
  end.

Definition emit (name : EventName) (arg : Arg) : M unit :=
  let! ls := get (fun o => listeners_of name (listeners o)) in
  log_append (Emitted name arg) >>
  call_listeners name ls.

(** [on(name, listener)]. *)
Definition on (name : EventName) (l : Listener) : M unit :=
  assign (fun o => with_listeners (listeners o ++ [(name, l)]) o).

(** ** AsyncLock, key "startConnection"

    [acquire(key, fn)] of the async-lock package: when the key is free the
    key is taken and [fn] is called at once; when [fn] returns a promise the
    key is given back once that promise settles, and the first waiting task
    is then run in the same way.  When the key is held the task is queued
    (the bound of the package on the length of the queue is left out).

    The function [connect] passes (line 126) is an [async] function whose
    body only calls [setInterval]: it has no [await], so the promise it
    returns is already fulfilled and the key is given back among the promise
    continuations of the very task that took it. *)

(** Body of the function passed to [acquire] (lines 126-136). *)
Definition startConnection (p : PromiseId) : M unit :=
  let! _ := setInterval (ConnectRetry p) in
  ret tt.

(** The key is given back: the waiting tasks run one after the other, each
    giving the key back as soon as its body has returned. *)
Fixpoint lock_drain (waiting : list PromiseId) : M unit :=
  match waiting with
  | [] => assign (with_lock None)
  | p :: rest =>
      assign (with_lock (Some rest)) >>
      startConnection p >>
      lock_drain rest
  end.

Definition lock_done : M unit :=
  let! q := get lock in
  match q with
  | None => ret tt
  | Some waiting => lock_drain waiting
  end.

Definition lock_acquire (p : PromiseId) : M unit :=
  let! q := get lock in
  match q with
  | None =>
      assign (with_lock (Some [])) >>
      startConnection p >>
      lock_done
  | Some waiting => assign (with_lock (Some (waiting ++ [p])))
  end.

(** ** The methods of RecEthers *)

(** State built by the constructor (lines 52-61). *)
Definition constructed : State :=
  {| this := {| uri := None; MAX_TIMEOUT := None; lock := None;
                _isConnected := false; _lastConnectionResponse := 0;
                _lastTransaction := None; provider := None;
                __keepAliveInterval := None; listeners := [] |};
     rt := {| sockets := []; closeCalls := []; timers := ∅; nextTimer := 0%nat;
              nextPromise := 0%nat; resolved := ∅; log := [] |} |}.

(** [init(uri, max_timeout)] (lines 68-71). *)
Definition init (u : string) (max_timeout : Z) : M unit :=
  assign (with_uri (Some u)) >>
  assign (with_MAX_TIMEOUT (Some max_timeout)).

(** [__establishConnection()] (lines 76-115), called by the tick of the
    interval [owner] of [connect], which awaits the returned promise and
    holds [resolve] of [p].  The handlers set on the new provider and its
    websocket (lines 90-99) are the cases [WsError], [WsClose], [WsOpen],
    [ProviderPending] and [ProviderBlock] of [step].  When the constructor
    throws (line 83) the executor ends there: the two fields were reset,
    [this.provider] is not assigned and no poll is started, so the returned
    promise never settles. *)
Definition __establishConnection (owner : TimerId) (p : PromiseId) : M unit :=
  assign (with_lastConnectionResponse 0) >>
  assign (with_lastTransaction None) >>
  let! u := get uri in
  let! h := new_WebSocketProvider u in
  assign (with_provider (Some h)) >>
  let! _ := setInterval (AttemptPoll owner p) in
  ret tt.

(** Continuation of the tick of [connect] after
    [await this.__establishConnection()] (lines 132-133). *)
Definition connect_resume (owner : TimerId) (p : PromiseId) : M unit :=
  clearInterval owner >>
  resolve p.

(** Callback of the interval of [__establishConnection] (lines 105-113);
    [tid] is [tempInterval].  [reject()] makes the [await] of [connect] throw
    into its empty [catch]. *)
Definition attemptPoll (tid owner : TimerId) (p : PromiseId) : M unit :=
  let! r := get _lastConnectionResponse in
  if r =? 0 then ret tt
  else
    clearInterval tid >>
    if r =? 1 then connect_resume owner p
    else ret tt.

(** [connect()] (lines 120-138).  The executor returns without calling
    [resolve] when [_isConnected] holds. *)
Definition connect : M PromiseId :=
  let! p := newPromise in
  let! c := get _isConnected in
  if c then ret p
  else
    lock_acquire p >>
    ret p.

(** [reconnect()] (lines 143-153), up to its [await]; nothing follows it. *)
Definition reconnect : M unit :=
  let! c := get _isConnected in
  if c then websocket_close
  else
    let! _ := connect in
    ret tt.

(** Callback of the keep-alive interval (lines 175-182).  A comparison with
    an [undefined] [MAX_TIMEOUT] is false. *)
Definition keepAlive (now : Z) : M unit :=
  let! last := get _lastTransaction in
  match last with
  | None => ret tt
  | Some t =>
      let! m := get MAX_TIMEOUT in
      if match m with Some m => now - t <? m | None => false end then ret tt
      else reconnect
  end.

Definition clear_keepAlive : M unit :=
  let! k := get __keepAliveInterval in
  match k with
  | Some id => clearInterval id
  | None => ret tt
  end.

(** [__customOpen(event)] (lines 161-187). *)
Definition __customOpen : M unit :=
  let! c := get _isConnected in
  if c then ret tt
  else
    let! r := get _lastConnectionResponse in
    when (r =? 0) (assign (with_lastConnectionResponse 1)) >>
    clear_keepAlive >>
    let! id := setInterval KeepAlive in
    assign (with_keepAliveInterval (Some id)) >>
    assign (with_isConnected true) >>
    emit connected NoArg.

(** [__customClose(event, isError)] (lines 194-210). *)
Definition __customClose (isError : bool) : M unit :=
  let! c := get _isConnected in
  if negb c then ret tt
  else
    let! r := get _lastConnectionResponse in
    when (r =? 0) (assign (with_lastConnectionResponse 2)) >>
    clear_keepAlive >>
    assign (with_isConnected false) >>
    emit disconnected NoArg >>
    reconnect.

(** Handlers of the provider events (lines 95-99). *)
Definition on_pending (txHash : string) (now : Z) : M unit :=
  assign (with_lastTransaction (Some now)) >>
  emit pending (TxHash txHash).

Definition on_block (blockNum : Z) : M unit :=
  emit block (BlockNum blockNum).

(** The global [WebSocket] is not declared in the source file: the
    environment provides it ([Some] with its [OPEN] constant) or not. *)
Record Globals := { WebSocket : option Z }.

(** [isConnected()] (line 214).  [&&] evaluates its right operand only when
    the left one is true; [===] evaluates
    [this.provider._websocket.readyState] before [WebSocket.OPEN].  A handle
    that denotes no socket reads as [undefined]. *)
Definition isConnected (G : Globals) (s : State) : Completion bool :=
  if _isConnected (this s) then
    match provider (this s) with
    | None => Throw TypeError
    | Some h =>
        match sockets (rt s) !! h with
        | None => Throw TypeError
        | Some ws =>
            match WebSocket G with
            | None => Throw ReferenceError
            | Some open => Normal (readyState ws =? open)
            end
        end
    end
  else Normal false.

Definition getProvider (s : State) : option Handle := provider (this s).
Definition getUri (s : State) : option string := uri (this s).

(** Values a condition of the source can have. *)
Inductive JsValue :=
  | JsUndefined
  | JsBoolean (b : bool)
  | JsFunction.

Definition ToBoolean (v : JsValue) : bool :=
  match v with
  | JsUndefined => false
  | JsBoolean b => b
  | JsFunction => true
  end.

(** The expression [this.isConnected] of line 227: the member itself, which
    is the arrow function of line 214; it is not called. *)
Definition this_isConnected : JsValue := JsFunction.

(** Callback of the interval of [waitConnection] (lines 226-231). *)
Definition waitPoll (tid : TimerId) (p : PromiseId) : M unit :=
  if negb (ToBoolean this_isConnected) then ret tt
  else
    clearInterval tid >>
    resolve p.

(** [waitConnection()] (lines 224-233). *)
Definition waitConnection : M PromiseId :=
  let! p := newPromise in
  let! _ := setInterval (WaitPoll p) in
  ret p.

(** ** Tasks of the event loop *)

(** What can happen to the object: calls of its public methods by the
    application, ticks of the active intervals, and the signals of the
    sockets and providers it has constructed.  [now] is the value of
    [Date.now()] during the task. *)
Inductive Action :=
  | CallInit (u : string) (max_timeout : Z)
  | CallOn (name : EventName) (l : Listener)
  | CallConnect
  | CallReconnect
  | CallWaitConnection
  | Tick (tid : TimerId) (now : Z)
  | WsOpen (h : Handle)
  | WsError (h : Handle)
  | WsClose (h : Handle)
  | ProviderPending (h : Handle) (txHash : string) (now : Z)
  | ProviderBlock (h : Handle) (blockNum : Z)
  | WsReadyState (h : Handle) (rs : Z).

(** A tick runs the callback of the interval, if it is still active. *)
Definition tick (tid : TimerId) (now : Z) : M unit :=
  let! t := gets (fun s => timers (rt s) !! tid) in
  match t with
  | None => ret tt
  | Some (ConnectRetry p) => __establishConnection tid p
  | Some (AttemptPoll owner p) => attemptPoll tid owner p
  | Some KeepAlive => keepAlive now
  | Some (WaitPoll p) => waitPoll tid p
  end.

(** Signals come only from sockets and providers that were constructed. *)
Definition from_socket (h : Handle) (m : M unit) : M unit :=
  let! n := gets (fun s => length (sockets (rt s))) in
  if (h <? n)%nat then m else ret tt.

(** The transport changes the [readyState] of one of its sockets. *)
Definition set_readyState (h : Handle) (rs : Z) : M unit :=
  modify (on_rt (fun r =>
    with_sockets
      (alter (fun ws => {| sock_uri := sock_uri ws; readyState := rs |}) h (sockets r)) r)).

Definition task (a : Action) : M unit :=
  match a with
  | CallInit u max_timeout => init u max_timeout
  | CallOn name l => on name l
  | CallConnect => let! _ := connect in ret tt
  | CallReconnect => reconnect
  | CallWaitConnection => let! _ := waitConnection in ret tt
  | Tick tid now => tick tid now
  | WsOpen h => from_socket h __customOpen
  | WsError h => from_socket h (__customClose true)
  | WsClose h => from_socket h (__customClose false)
  | ProviderPending h txHash now => from_socket h (on_pending txHash now)
  | ProviderBlock h blockNum => from_socket h (on_block blockNum)
  | WsReadyState h rs => set_readyState h rs
  end.

(** An exception ends the task; what the task did before stays done. *)
Definition step (a : Action) (s : State) : State := snd (task a s).

Fixpoint run (tr : list Action) (s : State) : State :=
  match tr with
  | [] => s
  | a :: tr' => run tr' (step a s)
  end.

Inductive reachable : State -> Prop :=
  | reachable_constructed : reachable constructed
  | reachable_step a s : reachable s -> reachable (step a s).

(** ** Observations *)

Definition is_emission (name : EventName) (i : LogItem) : bool :=
  match i with
  | Emitted n _ => bool_decide (n = name)
  | Invoked _ _ => false
  end.

(** Number of emissions of the event [name] so far. *)
Definition emissions (name : EventName) (s : State) : nat :=
  length (List.filter (is_emission name) (log (rt s))).

Definition is_AttemptPoll (t : Timer) : bool :=
  match t with AttemptPoll _ _ => true | _ => false end.

(** Attempts whose outcome is not yet known: the promises of
    [__establishConnection] that are still polled. *)
Definition outstanding_attempts (s : State) : nat :=
  length (List.filter (fun kt => is_AttemptPoll (snd kt)) (map_to_list (timers (rt s)))).

(** Number of [WebSocketProvider] objects constructed so far. *)
Definition opens (s : State) : nat := length (sockets (rt s)).

(** ** Notions used in the statements *)

(** The listeners that are invoked: those up to and including the first
    one that throws. *)
Fixpoint ran (ls : list Listener) : list Listener :=
  match ls with
  | [] => []
  | l :: rest => l :: (if throws l then [] else ran rest)
  end.

(** How the emission ends. *)
Fixpoint outcome (ls : list Listener) : Completion unit :=
  match ls with
  | [] => Normal tt
  | l :: rest => if throws l then Throw (ListenerError (lid l)) else outcome rest
  end.

Definition invocations (name : EventName) (ls : list Listener) : list LogItem :=
  (fun l => Invoked name (lid l)) <$> ls.

(** The state after [items] were appended to the log. *)
Definition logged (items : list LogItem) (s : State) : State :=
  on_rt (fun r => with_log (log r ++ items) r) s.

(** [this.provider] is the provider constructed last, and the flag is only
    set once a provider exists. *)
Definition provider_latest (s : State) : Prop :=
  match provider (this s) with
  | None => sockets (rt s) = [] /\ _isConnected (this s) = false
  | Some h => S h = length (sockets (rt s))
  end.

(** The transport of the current provider reports the open state. *)
Definition transport_ready (s : State) : Prop :=
  exists h ws,
    provider (this s) = Some h /\ sockets (rt s) !! h = Some ws /\ readyState ws = OPEN.

Definition is_pending (a : Action) : bool :=
  match a with ProviderPending _ _ _ => true | _ => false end.

Definition is_open (a : Action) : bool :=
  match a with WsOpen _ => true | _ => false end.

(** The two signals a dropped socket [h] gives. *)
Definition drop_signal (h : Handle) (a : Action) : Prop :=
  a = WsError h \/ a = WsClose h.

(** The promise whose [resolve] the callback of an interval holds. *)
Definition promise_of (t : Timer) : option PromiseId :=
  match t with
  | ConnectRetry p => Some p
  | AttemptPoll _ p => Some p
  | KeepAlive => None
  | WaitPoll p => Some p
  end.

(** [p] is pending and no interval holds its [resolve]. *)
Definition abandoned (p : PromiseId) (s : State) : Prop :=
  (p ∉ resolved (rt s))
  /\ map_Forall (fun _ t => promise_of t <> Some p) (timers (rt s)).

(** Error or close signal of a socket. *)
Definition is_drop (a : Action) : bool :=
  match a with WsError _ | WsClose _ => true | _ => false end.

Definition is_wait (a : Action) : bool :=
  match a with CallWaitConnection => true | _ => false end.

(** The keep-alive interval and the flag go together: an active keep-alive
    callback is the one stored in [__keepAliveInterval] and the flag is set;
    when the flag is set that interval is active; the stored identifier was
    handed out; and the interval an attempt will clear on success is not a
    keep-alive interval. *)
Definition keepAlive_matches_flag (s : State) : Prop :=
  (forall t, timers (rt s) !! t = Some KeepAlive ->
     _isConnected (this s) = true /\ __keepAliveInterval (this s) = Some t)
  /\ (_isConnected (this s) = true ->
      exists t, __keepAliveInterval (this s) = Some t
                /\ timers (rt s) !! t = Some KeepAlive)
  /\ (forall k, __keepAliveInterval (this s) = Some k -> (k < nextTimer (rt s))%nat)
  /\ (forall t owner p, timers (rt s) !! t = Some (AttemptPoll owner p) ->
       (owner < nextTimer (rt s))%nat /\ timers (rt s) !! owner <> Some KeepAlive).

(** No socket has opened yet and [waitConnection] was not used: the flag and
    [_lastConnectionResponse] have their initial values, nothing was resolved
    or closed, and neither [connected] nor [disconnected] was emitted. *)
Definition never_opened (s : State) : Prop :=
  _isConnected (this s) = false
  /\ _lastConnectionResponse (this s) = 0
  /\ resolved (rt s) = ∅
  /\ closeCalls (rt s) = []
  /\ emissions connected s = 0%nat
  /\ emissions disconnected s = 0%nat
  /\ map_Forall (fun _ t => forall p, t <> WaitPoll p) (timers (rt s)).

(** Since the state [s0], the address is unchanged and every provider
    constructed was constructed for it. *)
Definition address_kept (s0 s : State) : Prop :=
  getUri s = getUri s0
  /\ (opens s0 <= opens s)%nat
  /\ (getUri s0 = None -> opens s = opens s0)
  /\ forall i ws, (opens s0 <= i)%nat -> sockets (rt s) !! i = Some ws ->
        exists address, getUri s0 = Some address /\ socket_url address = sock_uri ws.

Definition is_init (a : Action) : bool :=
  match a with CallInit _ _ => true | _ => false end.

(** The state in which [close()] was requested on the socket [h]. *)
Definition close_requested (h : Handle) (s : State) : State :=
  on_rt (fun r => with_closeCalls (closeCalls r ++ [h]) r) s.

End Model.

(** ** Example executions *)

(** The transport library of the examples: it accepts the addresses that
    begin with ws:// and connects to them, and takes its default URL for
    the empty string. *)
Definition node : TransportAdapter :=
  {| socket_url address :=
       if String.eqb address "" then Some "http://localhost:8545"
       else if String.prefix "ws://" address then Some address
       else None |}.

(** The application has initialised the object. *)
Definition initialised : State :=
  run (T := node) [CallInit "ws://node:8546" 5000] constructed.

(** The application initialises and calls [connect] (promise 0, retry
    interval 0); the first tick of the interval constructs the provider 0 and
    starts the poll of the attempt (interval 1).  No signal has arrived. *)
Definition connecting : State :=
  run (T := node) [CallInit "ws://node:8546" 5000; CallConnect; Tick 0%nat 100] constructed.

(** The transport opens socket 0 and signals it ([__customOpen] starts the
    keep-alive interval 2); the next poll of the attempt resolves promise 0
    and clears the intervals 0 and 1. *)
Definition established : State :=
  run (T := node) [WsReadyState 0%nat OPEN; WsOpen 0%nat; Tick 1%nat 200] connecting.

(** A pending transaction arrives at time 1000. *)
Definition after_pending : State :=
  run (T := node) [ProviderPending 0%nat "0xabc" 1000] established.

(** A connection is opened and only a new block arrives on it. *)
Definition quiet_connection : list Action :=
  [WsReadyState 0%nat OPEN; WsOpen 0%nat; Tick 1%nat 200; ProviderBlock 0%nat 17].

(** The same connection as [established], with two listeners of
    [disconnected] registered beforehand: the first throws. *)
Definition with_throwing_listener : State :=
  run (T := node) [CallOn disconnected {| lid := 0; throws := true |};
       CallOn disconnected {| lid := 1; throws := false |};
       CallInit "ws://node:8546" 5000; CallConnect; Tick 0%nat 100;
       WsReadyState 0%nat OPEN; WsOpen 0%nat; Tick 1%nat 200] constructed.

(** * Proofs *)

Section Proofs.
Context {T : TransportAdapter}.

(** ** Effect of an emission *)

Lemma logged_logged i j s : logged j (logged i s) = logged (i ++ j) s.
Proof. unfold logged, on_rt, with_log. cbn. by rewrite app_assoc. Qed.

Lemma logged_nil s : logged [] s = s.
Proof. unfold logged, on_rt, with_log. cbn. by rewrite app_nil_r. Qed.

Lemma call_listeners_eq name ls s :
  call_listeners name ls s = (outcome ls, logged (invocations name (ran ls)) s).
Proof.
  revert s. induction ls as [|l rest IH]; intros s.
  - cbn. by rewrite logged_nil.
  - cbn [call_listeners ran outcome]. unfold bind, log_append, modify.
    fold (logged [Invoked name (lid l)] s).
    destruct (throws l).
    + reflexivity.
    + rewrite IH, logged_logged. reflexivity.
Qed.

Lemma emit_eq name arg s :
  emit name arg s =
  (outcome (listeners_of name (listeners (this s))),
   logged (Emitted name arg ::
           invocations name (ran (listeners_of name (listeners (this s))))) s).
Proof.
  unfold emit, bind, get, gets, log_append, modify.
  fold (logged [Emitted name arg] s).
  rewrite call_listeners_eq, logged_logged. reflexivity.
Qed.

(** ** Symbolic execution of a task

    [mstep] unfolds the methods and the monad; [case_stuck] splits on the
    condition the execution is waiting for. *)

Ltac mstep :=
  lazy beta iota zeta delta
    [bind ret gets modify throw fst snd this rt on_this on_rt logged
     uri MAX_TIMEOUT lock _isConnected _lastConnectionResponse _lastTransaction
     provider __keepAliveInterval listeners sockets closeCalls timers nextTimer
     nextPromise resolved log
     with_uri with_MAX_TIMEOUT with_lock with_isConnected
     with_lastConnectionResponse with_lastTransaction with_provider
     with_keepAliveInterval with_listeners with_sockets with_closeCalls
     with_timers with_nextTimer with_nextPromise with_resolved with_log
     step task tick from_socket set_readyState init on connect reconnect
     waitConnection waitPoll keepAlive clear_keepAlive __customOpen
     __customClose on_pending on_block attemptPoll connect_resume
     __establishConnection lock_acquire lock_done lock_drain startConnection
     websocket_close new_WebSocketProvider newPromise resolve setInterval
     clearInterval log_append when get assign
     this_isConnected ToBoolean negb].

Ltac mstep_in H :=
  lazy beta iota zeta delta
    [bind ret gets modify throw fst snd this rt on_this on_rt logged
     uri MAX_TIMEOUT lock _isConnected _lastConnectionResponse _lastTransaction
     provider __keepAliveInterval listeners sockets closeCalls timers nextTimer
     nextPromise resolved log
     with_uri with_MAX_TIMEOUT with_lock with_isConnected
     with_lastConnectionResponse with_lastTransaction with_provider
     with_keepAliveInterval with_listeners with_sockets with_closeCalls
     with_timers with_nextTimer with_nextPromise with_resolved with_log
     step task tick from_socket set_readyState init on connect reconnect
     waitConnection waitPoll keepAlive clear_keepAlive __customOpen
     __customClose on_pending on_block attemptPoll connect_resume
     __establishConnection lock_acquire lock_done lock_drain startConnection
     websocket_close new_WebSocketProvider newPromise resolve setInterval
     clearInterval log_append when get assign
     this_isConnected ToBoolean negb] in H.

Ltac case_stuck :=
  match goal with
  | |- context [match ?x with _ => _ end] =>
      lazymatch x with
      | context [match _ with _ => _ end] => fail
      | _ => destruct x eqn:?
      end
  end.

Ltac sym :=
  repeat (progress mstep || rewrite emit_eq || rewrite lookup_insert_eq || case_stuck).

(** Bring the outcome of the case splits to a hypothesis. *)
Ltac use_eqs H :=
  mstep_in H;
  repeat match goal with
         | E : ?x = _ |- _ => tryif constr_eq E H then fail else rewrite E in H
         end.

(** ** Reachable states *)

Lemma reachable_run tr s : reachable s -> reachable (run tr s).
Proof.
  revert s. induction tr as [|a tr IH]; intros s Hs; [done|].
  cbn. apply IH. by constructor.
Qed.

(** The key "startConnection" is free between any two tasks: the task that
    takes it gives it back before it ends. *)
Lemma lock_free s : reachable s -> lock (this s) = None.
Proof.
  induction 1 as [|a s Hr IH]; [done|].
  destruct a; sym; congruence.
Qed.

Lemma provider_latest_reachable s : reachable s -> provider_latest s.
Proof.
  induction 1 as [|a s Hr IH]; [done|].
  unfold provider_latest in *.
  destruct a; sym; use_eqs IH; destruct_and?; simplify_eq/=;
    rewrite ?length_app, ?length_alter; cbn; try done; try lia.
  all: repeat match goal with
       | H : sockets _ = [] |- _ => rewrite H in *; cbn in *
       | H : (_ <? _)%nat = true |- _ => apply Nat.ltb_lt in H
       end; try lia.
  by destruct h.
Qed.

(** ** [init] *)

(** C5, as the code has it: [init] never fails and validates nothing; for
    every address and timeout, the empty address and non-positive timeouts
    included, it stores both and touches nothing else, so it starts no
    connection. *)
Theorem init_stores_without_validation (u : string) (max_timeout : Z) (s : State) :
  init u max_timeout s =
    (Normal tt, on_this (fun o => with_MAX_TIMEOUT (Some max_timeout) (with_uri (Some u) o)) s)
  /\ getUri (snd (init u max_timeout s)) = Some u
  /\ MAX_TIMEOUT (this (snd (init u max_timeout s))) = Some max_timeout
  /\ rt (snd (init u max_timeout s)) = rt s.
Proof. repeat split. Qed.

(** C5 fails as stated: the empty address and the timeout 0 are accepted. *)
Lemma init_accepts_empty_address :
  fst (init "" 1000 constructed) = Normal tt
  /\ getUri (snd (init "" 1000 constructed)) = Some ""
  /\ fst (init "ws://node:8546" 0 constructed) = Normal tt
  /\ MAX_TIMEOUT (this (snd (init "ws://node:8546" 0 constructed))) = Some 0.
Proof. repeat split. Qed.

(** ** [isConnected] *)

(** C8: where the global [WebSocket] exists, [isConnected] returns a boolean
    in every reachable state, and it is [true] exactly when the flag
    [_isConnected] is set and the websocket of the current provider is in
    the state OPEN.  The query is a function of the state: it has no
    effect. *)
Theorem isConnected_flag_and_ready (G : Globals) (s : State) :
  reachable s ->
  WebSocket G = Some OPEN ->
  (exists b, isConnected G s = Normal b)
  /\ (isConnected G s = Normal true <-> _isConnected (this s) = true /\ transport_ready s).
Proof.
  intros Hr HG. pose proof (provider_latest_reachable s Hr) as Hp.
  unfold provider_latest, isConnected, transport_ready in *. rewrite HG.
  destruct (_isConnected (this s)) eqn:Hc.
  - destruct (provider (this s)) as [h|] eqn:Hh; [|destruct Hp; congruence].
    destruct (sockets (rt s) !! h) as [ws|] eqn:Hws.
    + split; [eauto|]. split.
      * intros [= Heq]. apply Z.eqb_eq in Heq. split; [done|]. by exists h, ws.
      * intros [_ (h' & ws' & [= <-] & Hws' & Hrs)]. simplify_eq.
        by rewrite Hrs.
    + apply lookup_ge_None in Hws. lia.
  - split; [eauto|]. split; [done|]. by intros [? _].
Qed.

(** X9: where the global [WebSocket] does not exist, the comparison is
    reached exactly when the flag is set, and it throws. *)
Lemma isConnected_without_global (G : Globals) (s : State) :
  reachable s ->
  WebSocket G = None ->
  isConnected G s = if _isConnected (this s) then Throw ReferenceError else Normal false.
Proof.
  intros Hr HG. pose proof (provider_latest_reachable s Hr) as Hp.
  unfold provider_latest, isConnected in *. rewrite HG.
  destruct (_isConnected (this s)) eqn:Hc; [|done].
  destruct (provider (this s)) as [h|] eqn:Hh; [|destruct Hp; congruence].
  destruct (sockets (rt s) !! h) as [ws|] eqn:Hws; [done|].
  apply lookup_ge_None in Hws. lia.
Qed.

(** C10, as the code has it: before any [connect] has constructed a provider
    the flag is false, [&&] does not evaluate its right operand, and
    [isConnected] returns false whether or not the global [WebSocket]
    exists; [waitConnection] does not throw either, and its poll does not
    call [isConnected]. *)
Theorem isConnected_false_before_connect (G : Globals) (s : State) (now : Z) :
  reachable s ->
  provider (this s) = None ->
  isConnected G s = Normal false
  /\ fst (waitConnection s) = Normal (nextPromise (rt s))
  /\ fst (tick (nextTimer (rt s)) now (snd (waitConnection s))) = Normal tt.
Proof.
  intros Hr Hp. pose proof (provider_latest_reachable s Hr) as Hl.
  unfold provider_latest in Hl. rewrite Hp in Hl. destruct Hl as [_ Hc].
  split; [|split].
  - unfold isConnected. by rewrite Hc.
  - reflexivity.
  - by sym.
Qed.

(** C10 fails as stated: on the freshly constructed object [isConnected]
    returns false, also where the global [WebSocket] does not exist. *)
Lemma isConnected_constructed_does_not_throw :
  isConnected {| WebSocket := None |} constructed = Normal false
  /\ forall e, isConnected {| WebSocket := None |} constructed <> Throw e.
Proof. split; [reflexivity|]. intros e. discriminate. Qed.

(** ** The activity marker [_lastTransaction] *)


(** ** The keep-alive check *)

Lemma marker_stays_reset a s :
  is_pending a = false ->
  _lastTransaction (this s) = None ->
  _lastTransaction (this (step a s)) = None.
Proof. intros Ha Hm. destruct a; try discriminate; sym; congruence. Qed.

Lemma marker_stays_reset_run tr s :
  forallb (fun a => negb (is_pending a)) tr = true ->
  _lastTransaction (this s) = None ->
  _lastTransaction (this (run tr s)) = None.
Proof.
  revert s. induction tr as [|a tr IH]; intros s Htr Hm; [done|].
  cbn in Htr. apply andb_prop in Htr as [Ha Htr]. apply negb_true_iff in Ha.
  cbn. apply IH; [done|]. by apply marker_stays_reset.
Qed.

(** C7: once a tick of [connect] has started an attempt (which resets the
    marker), and as long as no pending-transaction signal is handled, the
    marker stays [undefined] and every tick of a keep-alive interval returns
    at its first test, whatever the time: the state is left as it is, so no
    [close] is requested and no [connect] is started. *)
Theorem keepAlive_skips_while_marker_reset
    (s0 : State) (t0 : TimerId) (p : PromiseId) (now0 : Z)
    (tr : list Action) (tid : TimerId) (now : Z) :
  timers (rt s0) !! t0 = Some (ConnectRetry p) ->
  forallb (fun a => negb (is_pending a)) tr = true ->
  timers (rt (run tr (step (Tick t0 now0) s0))) !! tid = Some KeepAlive ->
  _lastTransaction (this (run tr (step (Tick t0 now0) s0))) = None
  /\ step (Tick tid now) (run tr (step (Tick t0 now0) s0)) = run tr (step (Tick t0 now0) s0).
Proof.
  intros Ht0 Htr Hk.
  assert (_lastTransaction (this (run tr (step (Tick t0 now0) s0))) = None) as Hm.
  { apply marker_stays_reset_run; [done|]. mstep_in Ht0. mstep. rewrite Ht0. by sym. }
  split; [done|].
  set (s := run tr (step (Tick t0 now0) s0)) in *.
  mstep. mstep_in Hk. mstep_in Hm. rewrite Hk. mstep. rewrite Hm. by mstep.
Qed.

(** ** [disconnected] is emitted once per drop *)

Lemma filter_invocations name name' ls :
  List.filter (is_emission name) (invocations name' ls) = [].
Proof. induction ls as [|l ls IH]; [done|]. cbn. exact IH. Qed.

(** Counting the emissions of [name] after one emission of [name']. *)
Lemma emissions_after_emit name name' arg ls s s' :
  log (rt s') = log (rt s) ++ Emitted name' arg :: invocations name' ls ->
  emissions name s'
  = (emissions name s + if bool_decide (name' = name) then 1 else 0)%nat.
Proof.
  intros Hlog. unfold emissions. rewrite Hlog, List.filter_app, length_app. cbn.
  rewrite filter_invocations. by case_bool_decide.
Qed.

(** While the flag is false, a task other than an [open] signal keeps it
    false and does not emit [disconnected]. *)
Lemma disconnected_step a s :
  is_open a = false ->
  _isConnected (this s) = false ->
  _isConnected (this (step a s)) = false
  /\ emissions disconnected (step a s) = emissions disconnected s.
Proof.
  intros Ha Hc. mstep_in Hc.
  destruct a; try discriminate; sym; try congruence;
    (split; [done || congruence|]);
    try reflexivity;
    (erewrite (emissions_after_emit _ _ _ _ s) by reflexivity;
     case_bool_decide; simplify_eq; lia).
Qed.

Lemma disconnected_run tr s :
  forallb (fun a => negb (is_open a)) tr = true ->
  _isConnected (this s) = false ->
  _isConnected (this (run tr s)) = false
  /\ emissions disconnected (run tr s) = emissions disconnected s.
Proof.
  revert s. induction tr as [|a tr IH]; intros s Htr Hc; [done|].
  cbn in Htr. apply andb_prop in Htr as [Ha Htr]. apply negb_true_iff in Ha.
  destruct (disconnected_step a s Ha Hc) as [Hc' He'].
  destruct (IH (step a s) Htr Hc') as [Hc'' He''].
  change (run (a :: tr) s) with (run tr (step a s)).
  split; [done|]. by rewrite He''.
Qed.

(** A drop signal on a connected object: one emission, flag cleared. *)
Lemma first_drop_signal s h sig :
  _isConnected (this s) = true ->
  (h < opens s)%nat ->
  drop_signal h sig ->
  _isConnected (this (step sig s)) = false
  /\ emissions disconnected (step sig s) = S (emissions disconnected s).
Proof.
  intros Hc Hh Hsig. apply Nat.ltb_lt in Hh. unfold opens in Hh.
  mstep_in Hc. mstep_in Hh.
  destruct Hsig as [-> | ->]; sym; try congruence; (split; [done|]).
  all: erewrite (emissions_after_emit _ _ _ _ s) by reflexivity;
    case_bool_decide; simplify_eq; lia.
Qed.

(** A drop signal on an object whose flag is false is ignored. *)
Lemma drop_signal_ignored s h sig :
  _isConnected (this s) = false ->
  drop_signal h sig ->
  step sig s = s.
Proof.
  intros Hc Hsig. mstep_in Hc.
  destruct Hsig as [-> | ->]; sym; congruence.
Qed.

(** X15: on a connected object, the first of the two signals of a drop
    ([error] or [close], in either order) clears the flag and emits
    [disconnected] once; as long as no socket signals [open] in between,
    whatever else happens, the second signal finds the flag false and
    changes nothing, so [disconnected] has been emitted exactly once. *)
Theorem disconnected_once_per_drop
    (s : State) (h : Handle) (sig1 sig2 : Action) (between : list Action) :
  _isConnected (this s) = true ->
  (h < opens s)%nat ->
  drop_signal h sig1 ->
  drop_signal h sig2 ->
  forallb (fun a => negb (is_open a)) between = true ->
  emissions disconnected (step sig1 s) = S (emissions disconnected s)
  /\ _isConnected (this (step sig1 s)) = false
  /\ step sig2 (run between (step sig1 s)) = run between (step sig1 s)
  /\ emissions disconnected (step sig2 (run between (step sig1 s)))
     = S (emissions disconnected s).
Proof.
  intros Hc Hh H1 H2 Hb.
  destruct (first_drop_signal s h sig1 Hc Hh H1) as [Hc1 He1].
  destruct (disconnected_run between (step sig1 s) Hb Hc1) as [Hc2 He2].
  pose proof (drop_signal_ignored _ h sig2 Hc2 H2) as Hsame.
  repeat split; try done.
  rewrite Hsame. congruence.
Qed.

(** ** Listeners that throw *)

Lemma ran_no_throw ls :
  Forall (fun x => throws x = false) ls -> ran ls = ls /\ outcome ls = Normal tt.
Proof.
  induction 1 as [|x ls Hx _ [IH1 IH2]]; [done|].
  cbn. rewrite Hx. by rewrite IH1, IH2.
Qed.

Lemma ran_first_thrower before l after :
  Forall (fun x => throws x = false) before ->
  throws l = true ->
  ran (before ++ l :: after) = before ++ [l]
  /\ outcome (before ++ l :: after) = Throw (ListenerError (lid l)).
Proof.
  intros Hb Hl. induction Hb as [|x before Hx _ [IH1 IH2]].
  - cbn. by rewrite Hl.
  - cbn. rewrite Hx. by rewrite IH1, IH2.
Qed.

(** When no listener throws, all of them run, in registration order. *)
Lemma emit_all_run name arg s :
  Forall (fun x => throws x = false) (listeners_of name (listeners (this s))) ->
  emit name arg s
  = (Normal tt,
     logged (Emitted name arg :: invocations name (listeners_of name (listeners (this s)))) s).
Proof. intros H. rewrite emit_eq. by destruct (ran_no_throw _ H) as [-> ->]. Qed.

(** C9, as the code has it: an emission runs the listeners in registration
    order up to and including the first one that throws; the listeners
    registered after it are not run for that occurrence, and the exception
    leaves [emit].  In [__customClose] it ends the handler after the flag was
    cleared and before [reconnect()]: no promise and no interval is created
    and no [close] is requested.  In [__customOpen] it ends the handler after
    the flag was set. *)
Theorem listener_throw_ends_emission
    (s : State) (name : EventName) (arg : Arg)
    (before after : list Listener) (l : Listener) (isError : bool) :
  listeners_of name (listeners (this s)) = before ++ l :: after ->
  Forall (fun x => throws x = false) before ->
  throws l = true ->
  emit name arg s
  = (Throw (ListenerError (lid l)),
     logged (Emitted name arg :: invocations name (before ++ [l])) s)
  /\ (name = disconnected -> _isConnected (this s) = true ->
      fst (__customClose isError s) = Throw (ListenerError (lid l))
      /\ _isConnected (this (snd (__customClose isError s))) = false
      /\ nextPromise (rt (snd (__customClose isError s))) = nextPromise (rt s)
      /\ nextTimer (rt (snd (__customClose isError s))) = nextTimer (rt s)
      /\ closeCalls (rt (snd (__customClose isError s))) = closeCalls (rt s))
  /\ (name = connected -> _isConnected (this s) = false ->
      fst (__customOpen s) = Throw (ListenerError (lid l))
      /\ _isConnected (this (snd (__customOpen s))) = true).
Proof.
  intros Hls Hb Hl.
  destruct (ran_first_thrower before l after Hb Hl) as [Hran Hout].
  rewrite <- Hls in Hran, Hout.
  split; [|split].
  - rewrite emit_eq. by rewrite Hran, Hout.
  - intros -> Hc. mstep_in Hc. mstep_in Hout.
    sym; try congruence; repeat split; congruence.
  - intros -> Hc. mstep_in Hc. mstep_in Hout.
    sym; try congruence; repeat split; congruence.
Qed.

(** ** Promises that nothing will resolve *)

Lemma nextPromise_mono a s :
  (nextPromise (rt s) <= nextPromise (rt (step a s)))%nat.
Proof. destruct a; sym; lia. Qed.

Ltac holder_of Hall :=
  repeat match goal with
         | E : _ !! _ = Some _ |- _ =>
             apply (map_Forall_lookup_1 _ _ _ _ Hall) in E; cbn in E
         end.

(** A task resolves only promises held by intervals, and the only promise
    it can hand to a new interval is the one it creates. *)
Lemma abandoned_step a s p :
  lock (this s) = None ->
  (p < nextPromise (rt s) \/ nextPromise (rt (step a s)) <= p)%nat ->
  abandoned p s ->
  abandoned p (step a s).
Proof.
  intros Hlock Hp [Hres Hall]. unfold abandoned.
  mstep_in Hlock. mstep_in Hres. mstep_in Hall. revert Hp.
  destruct a; sym; intros Hp; try congruence; holder_of Hall;
    (split;
     [ first [ done
               | rewrite not_elem_of_union, not_elem_of_singleton;
                 split; [congruence | done] ]
     | repeat (apply map_Forall_insert_2 || apply map_Forall_delete);
       try done; cbn; try congruence; intros Heq; injection Heq; lia ]).
Qed.

Lemma abandoned_fresh s p :
  reachable s -> (nextPromise (rt s) <= p)%nat -> abandoned p s.
Proof.
  intros Hr. revert p. induction Hr as [|a s Hr IH]; intros p Hp.
  - split; [set_solver|]. apply map_Forall_empty.
  - apply abandoned_step; [by apply lock_free | by right |].
    apply IH. pose proof (nextPromise_mono a s). lia.
Qed.

Lemma abandoned_run tr s p :
  reachable s ->
  (p < nextPromise (rt s))%nat ->
  abandoned p s ->
  abandoned p (run tr s).
Proof.
  revert s. induction tr as [|a tr IH]; intros s Hr Hp Hab; [done|].
  change (run (a :: tr) s) with (run tr (step a s)).
  apply IH.
  - by constructor.
  - pose proof (nextPromise_mono a s). lia.
  - apply abandoned_step; [by apply lock_free | by left | done].
Qed.

(** ** [connect] on a connected object *)

(** C3, what the code does: when [_isConnected] holds, [connect] creates its
    promise and returns it without doing any connection work (no provider,
    no interval), but the executor returns before [resolve]: whatever
    happens afterwards, the promise is never resolved. *)
Theorem connect_when_connected_never_resolves (s : State) (tr : list Action) :
  reachable s ->
  _isConnected (this s) = true ->
  fst (connect s) = Normal (nextPromise (rt s))
  /\ step CallConnect s = snd (connect s)
  /\ opens (step CallConnect s) = opens s
  /\ timers (rt (step CallConnect s)) = timers (rt s)
  /\ nextPromise (rt s) ∉ resolved (rt (run tr (step CallConnect s))).
Proof.
  intros Hr Hc.
  assert (abandoned (nextPromise (rt s)) s) as Hab by (by apply abandoned_fresh).
  assert (abandoned (nextPromise (rt s)) (step CallConnect s)
          /\ (nextPromise (rt s) < nextPromise (rt (step CallConnect s)))%nat) as [Hab' Hlt].
  { mstep_in Hc. destruct Hab as [Hres Hall]. mstep_in Hres. mstep_in Hall.
    unfold abandoned. sym; try congruence. repeat split; (done || lia). }
  mstep_in Hc.
  repeat split.
  - sym; congruence.
  - sym; congruence.
  - unfold opens. sym; congruence.
  - sym; congruence.
  - apply (abandoned_run tr (step CallConnect s)); [by constructor | done | done].
Qed.

(** ** Concurrent attempts *)

(** X10: a [connect] on an object that is not connected never waits for the
    key: it installs its retry interval at once. *)
Lemma connect_installs_retry s :
  reachable s ->
  _isConnected (this s) = false ->
  timers (rt (step CallConnect s)) !! nextTimer (rt s)
  = Some (ConnectRetry (nextPromise (rt s)))
  /\ lock (this (step CallConnect s)) = None.
Proof.
  intros Hr Hc. pose proof (lock_free s Hr) as Hl. mstep_in Hc. mstep_in Hl.
  sym; try congruence. done.
Qed.

(** Every tick of a retry interval whose address the transport library
    accepts constructs a provider, whether or not earlier attempts are still
    unresolved. *)
Lemma retry_tick_opens s t p now address url :
  timers (rt s) !! t = Some (ConnectRetry p) ->
  uri (this s) = Some address ->
  socket_url address = Some url ->
  opens (step (Tick t now) s) = S (opens s)
  /\ timers (rt (step (Tick t now) s)) !! nextTimer (rt s) = Some (AttemptPoll t p).
Proof.
  intros Ht Hu Hurl. mstep_in Ht. mstep_in Hu. unfold opens.
  mstep. rewrite Ht. mstep. rewrite Hu. mstep. rewrite Hurl. sym.
  rewrite length_app. cbn. split; [lia | done].
Qed.

(** Identifiers of intervals are handed out in increasing order. *)
Lemma timers_below_next s :
  reachable s ->
  map_Forall (fun t _ => (t < nextTimer (rt s))%nat) (timers (rt s)).
Proof.
  induction 1 as [|a s Hr IH]; [apply map_Forall_empty|].
  mstep_in IH.
  assert (map_Forall (fun t _ => (t < S (nextTimer (rt s)))%nat) (timers (rt s))) as IH'.
  { mstep. eapply map_Forall_impl; [exact IH|]. cbn. intros. lia. }
  mstep_in IH'.
  destruct a; sym;
    repeat first [ apply map_Forall_delete | apply map_Forall_insert_2; [lia|] ];
    done.
Qed.

(** C1, what the code does: in every reachable state that is not connected,
    has an outstanding attempt (the interval [t] still polls its outcome)
    and holds an address the transport library accepts, a further [connect]
    does not wait: the first tick of its interval constructs one more
    provider and starts a second poll, while the earlier attempt is still
    outstanding and no promise has been resolved. *)
Theorem second_connect_starts_concurrent_attempt
    (s : State) (t owner : TimerId) (p : PromiseId) (now : Z) (address url : string) :
  reachable s ->
  _isConnected (this s) = false ->
  timers (rt s) !! t = Some (AttemptPoll owner p) ->
  uri (this s) = Some address ->
  socket_url address = Some url ->
  opens (run [CallConnect; Tick (nextTimer (rt s)) now] s) = S (opens s)
  /\ timers (rt (run [CallConnect; Tick (nextTimer (rt s)) now] s)) !! t
     = Some (AttemptPoll owner p)
  /\ timers (rt (run [CallConnect; Tick (nextTimer (rt s)) now] s)) !! S (nextTimer (rt s))
     = Some (AttemptPoll (nextTimer (rt s)) (nextPromise (rt s)))
  /\ t <> S (nextTimer (rt s))
  /\ resolved (rt (run [CallConnect; Tick (nextTimer (rt s)) now] s)) = resolved (rt s).
Proof.
  intros Hr Hc Ht Hu Hurl.
  pose proof (lock_free s Hr) as Hl.
  pose proof (map_Forall_lookup_1 _ _ _ _ (timers_below_next s Hr) Ht) as Hlt.
  cbn in Hlt. unfold opens, run.
  mstep_in Hc. mstep_in Hl. mstep_in Ht. mstep_in Hlt. mstep_in Hu.
  mstep. rewrite Hc. mstep. rewrite Hl. mstep. rewrite lookup_insert_eq. mstep.
  rewrite Hu. mstep. rewrite Hurl. mstep.
  rewrite lookup_insert_eq.
  rewrite length_app, !lookup_insert_ne by lia. cbn.
  repeat split; (done || lia).
Qed.

(** ** [waitConnection] *)

(** C4, what the code does: the poll of [waitConnection] tests the member
    [this.isConnected], a function and therefore true, so the first tick of
    its interval resolves the promise in every state, connected or not; the
    value of [isConnected()] plays no part and is not changed. *)
Theorem waitConnection_resolves_at_first_poll (G : Globals) (s : State) (now : Z) :
  fst (waitConnection s) = Normal (nextPromise (rt s))
  /\ nextPromise (rt s)
     ∈ resolved (rt (run [CallWaitConnection; Tick (nextTimer (rt s)) now] s))
  /\ isConnected G (run [CallWaitConnection; Tick (nextTimer (rt s)) now] s)
     = isConnected G s.
Proof.
  split; [reflexivity|]. unfold run, isConnected.
  sym; (split; [set_solver | reflexivity]).
Qed.

(** * Further properties of the class *)

(** ** [connected] is emitted once per connection *)

(** While the flag is set, a task other than an [error] or [close] signal
    keeps it set and does not emit [connected]. *)
Lemma connected_step a s :
  is_drop a = false ->
  _isConnected (this s) = true ->
  _isConnected (this (step a s)) = true
  /\ emissions connected (step a s) = emissions connected s.
Proof.
  intros Ha Hc. mstep_in Hc.
  destruct a; try discriminate; sym; try congruence;
    (split; [done || congruence|]);
    try reflexivity;
    (erewrite (emissions_after_emit _ _ _ _ s) by reflexivity;
     case_bool_decide; simplify_eq; lia).
Qed.

Lemma connected_run tr s :
  forallb (fun a => negb (is_drop a)) tr = true ->
  _isConnected (this s) = true ->
  _isConnected (this (run tr s)) = true
  /\ emissions connected (run tr s) = emissions connected s.
Proof.
  revert s. induction tr as [|a tr IH]; intros s Htr Hc; [done|].
  cbn in Htr. apply andb_prop in Htr as [Ha Htr]. apply negb_true_iff in Ha.
  destruct (connected_step a s Ha Hc) as [Hc' He'].
  destruct (IH (step a s) Htr Hc') as [Hc'' He''].
  change (run (a :: tr) s) with (run tr (step a s)).
  split; [done|]. by rewrite He''.
Qed.

(** An [open] signal on an object whose flag is set is ignored. *)
Lemma open_signal_ignored s h :
  _isConnected (this s) = true ->
  step (WsOpen h) s = s.
Proof. intros Hc. mstep_in Hc. sym; congruence. Qed.

(** X1: an [open] signal on an object that is not connected sets the flag
    and emits [connected] once; until an [error] or [close] signal arrives,
    whatever else happens, the flag stays set, [connected] is not emitted
    again, and every further [open] signal leaves the state as it is. *)
Theorem connected_once_per_open
    (s : State) (h h' : Handle) (tr : list Action) :
  _isConnected (this s) = false ->
  (h < opens s)%nat ->
  forallb (fun a => negb (is_drop a)) tr = true ->
  _isConnected (this (run tr (step (WsOpen h) s))) = true
  /\ emissions connected (run tr (step (WsOpen h) s)) = S (emissions connected s)
  /\ step (WsOpen h') (run tr (step (WsOpen h) s)) = run tr (step (WsOpen h) s).
Proof.
  intros Hc Hh Htr. apply Nat.ltb_lt in Hh. unfold opens in Hh.
  assert (_isConnected (this (step (WsOpen h) s)) = true
          /\ emissions connected (step (WsOpen h) s) = S (emissions connected s))
    as [Hc1 He1].
  { mstep_in Hc. mstep_in Hh. sym; try congruence; (split; [done|]).
    all: erewrite (emissions_after_emit _ _ _ _ s) by reflexivity;
      case_bool_decide; simplify_eq; lia. }
  destruct (connected_run tr _ Htr Hc1) as [Hc2 He2].
  split; [done|]. split; [congruence|].
  by apply open_signal_ignored.
Qed.

(** ** [connected] and [disconnected] alternate *)

Lemma emissions_same_log name s s' :
  log (rt s') = log (rt s) -> emissions name s' = emissions name s.
Proof. intros H. unfold emissions. by rewrite H. Qed.

(** Rewrite the number of emissions in the state a task ends in to the
    number in the state [s] it started from. *)
Ltac count_from s :=
  repeat match goal with
         | |- context [emissions ?n ?s'] =>
             lazymatch s' with
             | s => fail
             | _ => first
                 [ rewrite (emissions_same_log n s s') by reflexivity
                 | erewrite (emissions_after_emit n _ _ _ s s') by reflexivity ]
             end
         end.

(** X2: in every reachable state the number of [connected] events emitted
    so far is the number of [disconnected] events, plus one when the flag
    [_isConnected] is set: the two events alternate, starting with
    [connected], and the flag tells which one came last. *)
Theorem connected_disconnected_alternate (s : State) :
  reachable s ->
  emissions connected s
  = (emissions disconnected s + if _isConnected (this s) then 1 else 0)%nat.
Proof.
  induction 1 as [|a s Hr IH]; [reflexivity|].
  destruct a; sym; use_eqs IH; count_from s;
    repeat case_bool_decide; simplify_eq; lia.
Qed.

(** ** What [getProvider] returns *)

(** X7: in every reachable state [getProvider()] is [undefined] exactly as
    long as no provider was constructed, and afterwards it is the provider
    constructed last, whichever socket has opened. *)
Theorem getProvider_is_latest (s : State) :
  reachable s ->
  getProvider s = match opens s with O => None | S n => Some n end.
Proof.
  intros Hr. pose proof (provider_latest_reachable s Hr) as Hp.
  unfold provider_latest, getProvider, opens in *.
  destruct (provider (this s)) as [h|].
  - by rewrite <- Hp.
  - destruct Hp as [-> _]. reflexivity.
Qed.

(** ** Exceptions *)




(** X16: a tick of a retry interval whose address the provider constructor
    rejects ends with the constructor's exception after the two resets of
    [__establishConnection]: no provider is stored, no poll is started, no
    promise is settled, and the retry interval stays active, so that every
    later tick does the same. *)
Theorem retry_tick_rejected_address
    (s : State) (t : TimerId) (p : PromiseId) (now : Z) (e : JsError) :
  timers (rt s) !! t = Some (ConnectRetry p) ->
  fst (new_WebSocketProvider (uri (this s)) s) = Throw e ->
  task (Tick t now) s
  = (Throw e,
     on_this (fun r => with_lastTransaction None (with_lastConnectionResponse 0 r)) s).
Proof.
  intros Ht He. mstep_in Ht. mstep_in He.
  mstep. rewrite Ht. mstep.
  destruct (uri (this s)) as [address|] eqn:Hu; mstep_in Hu; rewrite ?Hu in *.
  - revert He. mstep. destruct (socket_url address); mstep; [done|].
    by intros [= <-].
  - revert He. mstep. by intros [= <-].
Qed.

(** ** The keep-alive interval *)

Ltac learn pf :=
  let T := type of pf in
  lazymatch goal with
  | _ : T |- _ => fail
  | _ => pose proof pf
  end.

Ltac split_lookups :=
  repeat match goal with
         | H : <[_:=_]> _ !! _ = Some _ |- _ =>
             apply lookup_insert_Some in H as [[? ?]|[? H]]
         | H : delete _ _ !! _ = Some _ |- _ =>
             apply lookup_delete_Some in H as [? H]
         end.

Ltac timer_facts Hk1 Hk3 Hk4 Hlt :=
  repeat match goal with
         | H : _ !! ?t = Some KeepAlive |- _ => learn (Hk1 t H)
         | H : _ !! ?t = Some (AttemptPoll ?o ?p) |- _ => learn (Hk4 t o p H)
         | H : _ !! ?t = Some _ |- _ => learn (map_Forall_lookup_1 _ _ _ _ Hlt H)
         | H : _ = Some ?k |- _ => learn (Hk3 k H)
         end;
  cbn beta in *; destruct_and?.

Ltac solve_lookup :=
  repeat first [ rewrite lookup_insert_eq
               | rewrite lookup_insert_ne by lia
               | rewrite lookup_delete_ne by congruence ];
  first [ assumption | reflexivity ].

Ltac timer_goal Hk1 Hk2 Hk3 Hk4 Hlt :=
  intros; split_lookups; simplify_eq; timer_facts Hk1 Hk3 Hk4 Hlt;
  first
    [ congruence
    | lia
    | lazymatch goal with
      | |- exists _, _ =>
          first
            [ eexists; split; [reflexivity|]; solve_lookup
            | let t0 := fresh "t0" in
              destruct Hk2 as (t0 & ? & ?); [congruence|];
              exists t0; split; [congruence|];
              timer_facts Hk1 Hk3 Hk4 Hlt; solve_lookup ]
      | |- _ <> _ =>
          let Hc := fresh "Hc" in
          intros Hc; split_lookups; simplify_eq;
          timer_facts Hk1 Hk3 Hk4 Hlt; first [congruence | lia]
      end ].

Lemma keepAlive_matches_flag_reachable s :
  reachable s -> keepAlive_matches_flag s.
Proof.
  induction 1 as [|a s Hr IH].
  - repeat split; try done; intros *; by rewrite ?lookup_empty.
  - pose proof (timers_below_next s Hr) as Hlt.
    destruct IH as (Hk1 & Hk2 & Hk3 & Hk4). unfold keepAlive_matches_flag.
    mstep_in Hk1. mstep_in Hk2. mstep_in Hk3. mstep_in Hk4. mstep_in Hlt.
    destruct a; sym.
    all: try (repeat split; assumption).
    all: repeat split; intros *.
    all: try (timer_goal Hk1 Hk2 Hk3 Hk4 Hlt).
    all: intros; simplify_eq; first [apply Hk3 | apply Nat.lt_lt_succ_r, Hk3]; done.
Qed.

(** X3: in every reachable state a keep-alive interval is active exactly
    when the flag [_isConnected] is set, and at most one is active: the
    check is started by [__customOpen], stopped by [__customClose], and
    nothing else clears or duplicates it. *)
Theorem keepAlive_active_iff_connected (s : State) (t t' : TimerId) :
  reachable s ->
  ((exists k, timers (rt s) !! k = Some KeepAlive) <-> _isConnected (this s) = true)
  /\ (timers (rt s) !! t = Some KeepAlive -> timers (rt s) !! t' = Some KeepAlive -> t = t').
Proof.
  intros Hr. destruct (keepAlive_matches_flag_reachable s Hr) as (Hk1 & Hk2 & _ & _).
  split; [split|].
  - intros [k Hk]. by destruct (Hk1 k Hk).
  - intros Hc. destruct (Hk2 Hc) as (k & _ & Hk). eauto.
  - intros Ht Ht'. destruct (Hk1 t Ht) as [_ H1]. destruct (Hk1 t' Ht') as [_ H2].
    congruence.
Qed.

(** X4: the keep-alive check of a reachable state in which a pending
    transaction was recorded at time [last].  It runs only while connected,
    so a provider exists; when [Date.now() - last] is below [MAX_TIMEOUT] the
    tick changes nothing, and from the threshold on (or when [MAX_TIMEOUT]
    was never set) it requests [close()] on the current provider and changes
    nothing else: the interval stays active and repeats the request at every
    tick until the socket signals. *)
Theorem keepAlive_threshold (s : State) (tid : TimerId) (last now : Z) :
  reachable s ->
  timers (rt s) !! tid = Some KeepAlive ->
  _lastTransaction (this s) = Some last ->
  exists h,
    getProvider s = Some h
    /\ step (Tick tid now) s
       = if match MAX_TIMEOUT (this s) with
            | Some m => now - last <? m
            | None => false
            end
         then s else close_requested h s.
Proof.
  intros Hr Ht Hm.
  destruct (keepAlive_matches_flag_reachable s Hr) as (Hk1 & _).
  destruct (Hk1 tid Ht) as [Hc _].
  pose proof (provider_latest_reachable s Hr) as Hp. unfold provider_latest in Hp.
  unfold getProvider, close_requested.
  destruct (provider (this s)) as [h|] eqn:Hh; [|destruct Hp; congruence].
  exists h. split; [done|].
  mstep_in Ht. mstep_in Hm. mstep_in Hc. mstep_in Hh.
  mstep. rewrite Ht. mstep. rewrite Hm. mstep.
  destruct (MAX_TIMEOUT (this s)) as [m|] eqn:HM; mstep_in HM; rewrite HM;
    [destruct (now - last <? m)|];
    mstep; rewrite ?Hc; mstep; rewrite ?Hh; by mstep.
Qed.


(** ** A successful [connect] *)

(** X5: [connect()] on a reachable object that is not connected and holds
    an address the transport library accepts: the first
    tick of its interval constructs a provider; once that socket signals
    [open] the object is connected, [connected] has been emitted once and a
    keep-alive interval runs; the next poll of the attempt resolves the
    promise [connect] returned and clears both the poll and the retry
    interval, so this [connect] constructs no further provider. *)
Theorem connect_resolves_after_open
    (s : State) (now1 now2 : Z) (address url : string) :
  reachable s ->
  _isConnected (this s) = false ->
  uri (this s) = Some address ->
  socket_url address = Some url ->
  nextPromise (rt s)
    ∈ resolved (rt (run [CallConnect; Tick (nextTimer (rt s)) now1; WsOpen (opens s);
                         Tick (S (nextTimer (rt s))) now2] s))
  /\ _isConnected (this (run [CallConnect; Tick (nextTimer (rt s)) now1; WsOpen (opens s);
                              Tick (S (nextTimer (rt s))) now2] s)) = true
  /\ timers (rt (run [CallConnect; Tick (nextTimer (rt s)) now1; WsOpen (opens s);
                      Tick (S (nextTimer (rt s))) now2] s)) !! nextTimer (rt s) = None
  /\ timers (rt (run [CallConnect; Tick (nextTimer (rt s)) now1; WsOpen (opens s);
                      Tick (S (nextTimer (rt s))) now2] s)) !! S (nextTimer (rt s)) = None
  /\ timers (rt (run [CallConnect; Tick (nextTimer (rt s)) now1; WsOpen (opens s);
                      Tick (S (nextTimer (rt s))) now2] s)) !! S (S (nextTimer (rt s)))
     = Some KeepAlive
  /\ getProvider (run [CallConnect; Tick (nextTimer (rt s)) now1; WsOpen (opens s);
                       Tick (S (nextTimer (rt s))) now2] s) = Some (opens s)
  /\ emissions connected (run [CallConnect; Tick (nextTimer (rt s)) now1; WsOpen (opens s);
                               Tick (S (nextTimer (rt s))) now2] s)
     = S (emissions connected s).
Proof.
  intros Hr Hc Hu Hurl.
  pose proof (lock_free s Hr) as Hl.
  destruct (keepAlive_matches_flag_reachable s Hr) as (_ & _ & Hk3 & _).
  unfold run, opens, getProvider.
  mstep_in Hc. mstep_in Hl. mstep_in Hk3. mstep_in Hu.
  mstep. rewrite Hc. mstep. rewrite Hl. mstep. rewrite lookup_insert_eq. mstep.
  rewrite Hu. mstep. rewrite Hurl. mstep.
  rewrite length_app. cbn [length].
  rewrite (proj2 (Nat.ltb_lt _ _)) by lia. mstep. rewrite Hc. mstep.
  rewrite Z.eqb_refl.
  assert (exists o, __keepAliveInterval (this s) = o
                    /\ forall k, o = Some k -> (k < nextTimer (rt s))%nat)
    as (o & Hk & Hlt) by (mstep; eauto).
  mstep_in Hk.
  destruct o as [k|]; [pose proof (Hlt k eq_refl) as Hlt'; mstep_in Hlt'|]; clear Hlt.
  all: repeat first
    [ progress mstep
    | rewrite emit_eq
    | rewrite Hk
    | rewrite lookup_insert_eq
    | rewrite lookup_insert_ne by lia
    | rewrite lookup_delete_ne by lia
    | progress change (1 =? 0) with false
    | progress change (1 =? 1) with true
    | case_stuck ].
  all: repeat first
    [ rewrite lookup_insert_eq
    | rewrite lookup_insert_ne by lia
    | rewrite lookup_delete_ne by lia ].
  all: repeat split; try done; try set_solver.
  all: repeat first
    [ rewrite lookup_delete_eq
    | rewrite lookup_delete_ne by lia
    | rewrite lookup_insert_eq
    | rewrite lookup_insert_ne by lia ]; try done.
  all: count_from s; repeat case_bool_decide; simplify_eq; lia.
Qed.


(** ** Without an [open] signal nothing settles *)

Lemma never_opened_step a s :
  is_open a = false ->
  is_wait a = false ->
  never_opened s ->
  never_opened (step a s).
Proof.
  intros Ho Hw (Hc & Hresp & Hres & Hcl & Hec & Hed & Hnw). unfold never_opened.
  mstep_in Hc. mstep_in Hresp. mstep_in Hres. mstep_in Hcl. mstep_in Hnw.
  destruct a; try discriminate; sym; try congruence.
  all: try match goal with
           | H : (_ =? 0) = false |- _ => rewrite Hresp in H; discriminate
           end.
  all: try match goal with
           | H : _ !! _ = Some (WaitPoll ?p) |- _ =>
               destruct (map_Forall_lookup_1 _ _ _ _ Hnw H p); reflexivity
           end.
  all: count_from s; repeat case_bool_decide; simplify_eq.
  all: repeat split; try done; try lia.
  all: repeat (apply map_Forall_insert_2 || apply map_Forall_delete); done.
Qed.

(** X6: as long as no socket signals [open] (and [waitConnection] is not
    used), whatever else happens, errors and closes of connecting sockets
    included, the object stays disconnected: [_lastConnectionResponse] stays
    0, so no attempt is ever marked failed and no promise of [connect] is
    resolved or rejected; no [close()] is requested on any socket; and
    neither [connected] nor [disconnected] is emitted. *)
Theorem nothing_settles_without_open (tr : list Action) :
  forallb (fun a => negb (is_open a) && negb (is_wait a)) tr = true ->
  never_opened (run tr constructed).
Proof.
  assert (never_opened constructed) as H0.
  { repeat split; try done; apply map_Forall_empty. }
  revert H0. generalize constructed as s.
  induction tr as [|a tr IH]; intros s Hs Htr; [done|].
  cbn in Htr. apply andb_prop in Htr as [Ha Htr]. apply andb_prop in Ha as [Ho Hw].
  apply negb_true_iff in Ho, Hw.
  change (run (a :: tr) s) with (run tr (step a s)).
  apply IH; [|done]. by apply never_opened_step.
Qed.

(** ** [waitConnection] leaves nothing behind *)

(** X8: in a reachable state, [waitConnection()] followed by the first tick
    of its interval resolves the returned promise, clears the interval
    (the active intervals are those of before) and touches no field of the
    object; a later tick of the cleared interval does nothing. *)
Theorem waitConnection_clears_its_interval (s : State) (now now' : Z) :
  reachable s ->
  timers (rt (run [CallWaitConnection; Tick (nextTimer (rt s)) now] s)) = timers (rt s)
  /\ this (run [CallWaitConnection; Tick (nextTimer (rt s)) now] s) = this s
  /\ resolved (rt (run [CallWaitConnection; Tick (nextTimer (rt s)) now] s))
     = {[nextPromise (rt s)]} ∪ resolved (rt s)
  /\ step (Tick (nextTimer (rt s)) now')
       (run [CallWaitConnection; Tick (nextTimer (rt s)) now] s)
     = run [CallWaitConnection; Tick (nextTimer (rt s)) now] s.
Proof.
  intros Hr.
  assert (timers (rt s) !! nextTimer (rt s) = None) as Hfresh.
  { destruct (timers (rt s) !! nextTimer (rt s)) eqn:E; [|done].
    apply (map_Forall_lookup_1 _ _ _ _ (timers_below_next s Hr)) in E. cbn in E. lia. }
  mstep_in Hfresh. unfold run.
  mstep. rewrite lookup_insert_eq. mstep.
  rewrite (delete_insert_id _ _ _ Hfresh), Hfresh. by mstep.
Qed.

(** ** An unanswered [connect] *)

(** X11: while the retry interval [t] of a [connect] is active and the
    object holds an address the transport library accepts, each of its ticks
    constructs one more provider, whether or not earlier attempts are still
    unresolved: after the ticks [nows] as many providers were added; the
    interval is still active, no [close()] was requested on the earlier
    sockets, and no promise was resolved. *)
Theorem retry_interval_opens_every_tick
    (s : State) (t : TimerId) (p : PromiseId) (nows : list Z) (address url : string) :
  reachable s ->
  timers (rt s) !! t = Some (ConnectRetry p) ->
  uri (this s) = Some address ->
  socket_url address = Some url ->
  opens (run (Tick t <$> nows) s) = (opens s + length nows)%nat
  /\ timers (rt (run (Tick t <$> nows) s)) !! t = Some (ConnectRetry p)
  /\ closeCalls (rt (run (Tick t <$> nows) s)) = closeCalls (rt s)
  /\ resolved (rt (run (Tick t <$> nows) s)) = resolved (rt s).
Proof.
  intros Hr Ht Hu Hurl. revert s Hr Ht Hu.
  induction nows as [|now nows IH]; intros s Hr Ht Hu.
  - cbn. repeat split; try done; lia.
  - pose proof (map_Forall_lookup_1 _ _ _ _ (timers_below_next s Hr) Ht) as Hlt.
    cbn in Hlt.
    assert (opens (step (Tick t now) s) = S (opens s)
            /\ timers (rt (step (Tick t now) s)) !! t = Some (ConnectRetry p)
            /\ closeCalls (rt (step (Tick t now) s)) = closeCalls (rt s)
            /\ resolved (rt (step (Tick t now) s)) = resolved (rt s)
            /\ uri (this (step (Tick t now) s)) = Some address)
      as (Ho & Ht' & Hc & Hres & Hu').
    { unfold opens. mstep_in Ht. mstep_in Hlt. mstep_in Hu.
      mstep. rewrite Ht. mstep. rewrite Hu. mstep. rewrite Hurl. mstep.
      rewrite length_app, lookup_insert_ne by lia. cbn.
      repeat split; try done; lia. }
    change (run (Tick t <$> now :: nows) s)
      with (run (Tick t <$> nows) (step (Tick t now) s)).
    destruct (IH (step (Tick t now) s)) as (Ho2 & Ht2 & Hc2 & Hres2);
      [by constructor | done | done |].
    rewrite Ho2, Ho, Hc2, Hc, Hres2, Hres. cbn [length].
    repeat split; try done; lia.
Qed.

(** ** Instances of earlier lemmas *)

(** ** The address *)

Lemma address_kept_step s0 a s :
  is_init a = false ->
  address_kept s0 s ->
  address_kept s0 (step a s).
Proof.
  intros Ha (Hu & Hle & Hn & Hs). unfold address_kept, getUri, opens in *.
  mstep_in Hu. mstep_in Hle. mstep_in Hn. mstep_in Hs.
  destruct a; try discriminate; sym; try (repeat split; assumption).
  - (* a tick of [connect] whose address is accepted *)
    split; [done|]. split; [rewrite length_app; cbn [length]; lia|].
    split; [intros Hnone; congruence|].
    intros i ws Hi Hws. apply lookup_app_Some in Hws as [Hws|[_ Hws]]; [eauto|].
    apply list_lookup_singleton_Some in Hws as [_ <-].
    eexists. split; [by rewrite <- Hu|]. done.
  - (* the transport changes a ready state *)
    split; [done|]. rewrite length_alter. split; [done|]. split; [done|].
    intros i ws Hi Hws. rewrite list_lookup_alter in Hws. case_decide.
    + subst i. apply fmap_Some in Hws as (ws0 & E & ->). exact (Hs h ws0 Hi E).
    + exact (Hs i ws Hi Hws).
Qed.

(** X14: as long as [init] is not called again, [getUri()] keeps returning
    the same address; every provider constructed from then on was constructed
    for that address, its socket connecting to the URL the transport library
    derives from it; and while no address was ever set, no provider is
    constructed at all. *)
Theorem address_used_by_every_attempt (s : State) (tr : list Action) :
  forallb (fun a => negb (is_init a)) tr = true ->
  getUri (run tr s) = getUri s
  /\ (getUri s = None -> opens (run tr s) = opens s)
  /\ (forall i ws, (opens s <= i)%nat -> sockets (rt (run tr s)) !! i = Some ws ->
        exists address, getUri s = Some address /\ socket_url address = sock_uri ws).
Proof.
  intros Htr.
  assert (address_kept s (run tr s)) as (Hu & _ & Hn & Hs); [|done].
  assert (address_kept s s) as H0.
  { split; [done|]. split; [lia|]. split; [done|]. intros j w Hj Hw.
    apply lookup_lt_Some in Hw. unfold opens in Hj. lia. }
  revert H0. generalize s at 2 4 as s1.
  induction tr as [|a tr IH]; intros s1 H1; [done|].
  cbn in Htr. apply andb_prop in Htr as [Ha Htr]. apply negb_true_iff in Ha.
  change (run (a :: tr) s1) with (run tr (step a s1)).
  apply IH; [done|]. by apply address_kept_step.
Qed.

(** ** A drop is followed by a reconnection *)

(** A drop followed by the reconnection the handler starts by itself. *)
Lemma reconnect_cycle
    (s : State) (h : Handle) (sig : Action) (now : Z) (address url : string) :
  reachable s ->
  _isConnected (this s) = true ->
  (h < opens s)%nat ->
  drop_signal h sig ->
  Forall (fun x => throws x = false) (listeners_of disconnected (listeners (this s))) ->
  uri (this s) = Some address ->
  socket_url address = Some url ->
  _isConnected (this (run [sig; Tick (nextTimer (rt s)) now; WsOpen (opens s)] s)) = true
  /\ getProvider (run [sig; Tick (nextTimer (rt s)) now; WsOpen (opens s)] s)
     = Some (opens s)
  /\ _lastTransaction (this (run [sig; Tick (nextTimer (rt s)) now; WsOpen (opens s)] s))
     = None
  /\ timers (rt (run [sig; Tick (nextTimer (rt s)) now; WsOpen (opens s)] s))
       !! S (S (nextTimer (rt s))) = Some KeepAlive
  /\ emissions disconnected (run [sig; Tick (nextTimer (rt s)) now; WsOpen (opens s)] s)
     = S (emissions disconnected s)
  /\ emissions connected (run [sig; Tick (nextTimer (rt s)) now; WsOpen (opens s)] s)
     = S (emissions connected s)
  /\ opens (run [sig; Tick (nextTimer (rt s)) now; WsOpen (opens s)] s) = S (opens s).
Proof.
  intros Hr Hc Hh Hsig Hls Hu Hurl.
  pose proof (lock_free s Hr) as Hl.
  destruct (ran_no_throw _ Hls) as [_ Hout].
  destruct (keepAlive_matches_flag_reachable s Hr) as (_ & Hk2 & Hk3 & _).
  destruct (Hk2 Hc) as (k & Hk & _). pose proof (Hk3 k Hk) as Hlt. clear Hk2 Hk3.
  apply Nat.ltb_lt in Hh.
  unfold run, opens, getProvider, emissions in *.
  mstep_in Hc. mstep_in Hl. mstep_in Hout. mstep_in Hk. mstep_in Hlt. mstep_in Hh.
  mstep_in Hu.
  destruct Hsig as [-> | ->].
  all: mstep; rewrite Hh; mstep; rewrite Hc; mstep.
  all: repeat first
    [ progress mstep
    | rewrite emit_eq
    | rewrite Hk
    | rewrite Hl
    | rewrite Hout
    | rewrite Hu
    | rewrite Hurl
    | rewrite Z.eqb_refl
    | rewrite lookup_insert_eq
    | rewrite lookup_insert_ne by lia
    | rewrite lookup_delete_ne by lia
    | rewrite length_app; cbn [length]; rewrite (proj2 (Nat.ltb_lt _ _)) by lia
    | case_stuck ].
  all: rewrite ?List.filter_app, ?length_app; cbn [List.filter is_emission];
    repeat case_bool_decide; simplify_eq; rewrite ?filter_invocations; cbn [length].
  all: repeat split; try done; lia.
Qed.

(** X13: when a socket of a connected, reachable object signals [close], no
    listener of [disconnected] throws and the object holds an address the
    transport library accepts, the handler emits [disconnected]
    and starts a [connect] by itself; the first tick of its interval
    constructs a new provider with the activity marker reset, and once that
    socket signals [open] the object is connected again: [connected] was
    emitted once more and a new keep-alive interval runs. *)
Theorem drop_then_reconnect (s : State) (h : Handle) (now : Z) (address url : string) :
  reachable s ->
  _isConnected (this s) = true ->
  (h < opens s)%nat ->
  Forall (fun x => throws x = false) (listeners_of disconnected (listeners (this s))) ->
  uri (this s) = Some address ->
  socket_url address = Some url ->
  _isConnected (this (run [WsClose h; Tick (nextTimer (rt s)) now; WsOpen (opens s)] s)) = true
  /\ getProvider (run [WsClose h; Tick (nextTimer (rt s)) now; WsOpen (opens s)] s)
     = Some (opens s)
  /\ _lastTransaction (this (run [WsClose h; Tick (nextTimer (rt s)) now; WsOpen (opens s)] s))
     = None
  /\ timers (rt (run [WsClose h; Tick (nextTimer (rt s)) now; WsOpen (opens s)] s))
       !! S (S (nextTimer (rt s))) = Some KeepAlive
  /\ emissions disconnected (run [WsClose h; Tick (nextTimer (rt s)) now; WsOpen (opens s)] s)
     = S (emissions disconnected s)
  /\ emissions connected (run [WsClose h; Tick (nextTimer (rt s)) now; WsOpen (opens s)] s)
     = S (emissions connected s).
Proof.
  intros Hr Hc Hh Hls Hu Hurl.
  destruct (reconnect_cycle s h (WsClose h) now address url Hr Hc Hh (or_intror eq_refl)
              Hls Hu Hurl) as (H1 & H2 & H3 & H4 & H5 & H6 & _).
  done.
Qed.

(** ** A late signal of a dropped socket *)

(** C2, what the code does: the handlers do not look at the socket a signal
    comes from.  On a connected, reachable object whose address the transport
    library accepts and whose listeners of [disconnected] do not throw, let
    the socket [h] give one of its two drop signals, the reconnection the
    handler starts open a new socket, and the socket [h] then give its other
    signal.  The object was connected again when that signal arrived; the
    signal is not ignored: [disconnected] is emitted a second time and the
    flag of the new connection is cleared. *)
Theorem late_drop_signal_emits_disconnected_again
    (s : State) (h : Handle) (sig1 sig2 : Action) (now : Z) (address url : string) :
  reachable s ->
  _isConnected (this s) = true ->
  (h < opens s)%nat ->
  drop_signal h sig1 ->
  drop_signal h sig2 ->
  Forall (fun x => throws x = false) (listeners_of disconnected (listeners (this s))) ->
  uri (this s) = Some address ->
  socket_url address = Some url ->
  _isConnected (this (run [sig1; Tick (nextTimer (rt s)) now; WsOpen (opens s)] s)) = true
  /\ emissions disconnected
       (run [sig1; Tick (nextTimer (rt s)) now; WsOpen (opens s); sig2] s)
     = S (S (emissions disconnected s))
  /\ _isConnected
       (this (run [sig1; Tick (nextTimer (rt s)) now; WsOpen (opens s); sig2] s)) = false.
Proof.
  intros Hr Hc Hh Hs1 Hs2 Hls Hu Hurl.
  destruct (reconnect_cycle s h sig1 now address url Hr Hc Hh Hs1 Hls Hu Hurl)
    as (Hc3 & _ & _ & _ & Hd3 & _ & Ho3).
  split; [done|].
  change (run [sig1; Tick (nextTimer (rt s)) now; WsOpen (opens s); sig2] s)
    with (step sig2 (run [sig1; Tick (nextTimer (rt s)) now; WsOpen (opens s)] s)).
  destruct (first_drop_signal _ h sig2 Hc3) as [Hc4 Hd4]; [lia | done |].
  split; [congruence | done].
Qed.

End Proofs.

(** * The theorems on the example executions *)

Existing Instance node.

Lemma established_reachable : reachable established.
Proof. unfold established, connecting. repeat apply reachable_run. constructor. Qed.

(** The connection of [established], in an environment with the global. *)
Lemma isConnected_flag_and_ready_witness :
  (exists b, isConnected {| WebSocket := Some OPEN |} established = Normal b)
  /\ (isConnected {| WebSocket := Some OPEN |} established = Normal true <->
      _isConnected (this established) = true /\ transport_ready established).
Proof.
  apply (isConnected_flag_and_ready {| WebSocket := Some OPEN |} established).
  - exact established_reachable.
  - reflexivity.
Defined.

(** The freshly constructed object, in an environment without the global. *)
Lemma isConnected_false_before_connect_witness :
  isConnected {| WebSocket := None |} constructed = Normal false
  /\ fst (waitConnection constructed) = Normal (nextPromise (rt constructed))
  /\ fst (tick (nextTimer (rt constructed)) 100 (snd (waitConnection constructed))) = Normal tt.
Proof.
  apply (isConnected_false_before_connect {| WebSocket := None |} constructed 100).
  - exact reachable_constructed.
  - reflexivity.
Defined.



(** A connection on which only a block arrives: the keep-alive interval 2
    ticks a long time after and does nothing. *)
Lemma keepAlive_skips_while_marker_reset_witness :
  _lastTransaction
    (this (run quiet_connection
             (step (Tick 0%nat 100) (run [CallInit "ws://node:8546" 5000; CallConnect] constructed))))
  = None
  /\ step (Tick 2%nat 1000000)
       (run quiet_connection
          (step (Tick 0%nat 100) (run [CallInit "ws://node:8546" 5000; CallConnect] constructed)))
     = run quiet_connection
         (step (Tick 0%nat 100) (run [CallInit "ws://node:8546" 5000; CallConnect] constructed)).
Proof.
  apply (keepAlive_skips_while_marker_reset
           (run [CallInit "ws://node:8546" 5000; CallConnect] constructed)
           0%nat 0%nat 100 quiet_connection 2%nat 1000000).
  - vm_compute. reflexivity.
  - vm_compute. reflexivity.
  - vm_compute. reflexivity.
Defined.

(** Socket 0 of [established] gives [error], the retry interval 3 of the
    reconnection ticks, then the socket gives [close]. *)
Lemma disconnected_once_per_drop_witness :
  emissions disconnected (step (WsError 0%nat) established)
    = S (emissions disconnected established)
  /\ _isConnected (this (step (WsError 0%nat) established)) = false
  /\ step (WsClose 0%nat) (run [Tick 3%nat 300] (step (WsError 0%nat) established))
     = run [Tick 3%nat 300] (step (WsError 0%nat) established)
  /\ emissions disconnected
       (step (WsClose 0%nat) (run [Tick 3%nat 300] (step (WsError 0%nat) established)))
     = S (emissions disconnected established).
Proof.
  apply (disconnected_once_per_drop established 0%nat (WsError 0%nat) (WsClose 0%nat)
           [Tick 3%nat 300]).
  - vm_compute. reflexivity.
  - vm_compute. lia.
  - left. reflexivity.
  - right. reflexivity.
  - vm_compute. reflexivity.
Defined.

(** The first of the two listeners of [disconnected] throws. *)
Lemma listener_throw_ends_emission_witness :
  emit disconnected NoArg with_throwing_listener
  = (Throw (ListenerError 0),
     logged (Emitted disconnected NoArg :: invocations disconnected [{| lid := 0; throws := true |}])
       with_throwing_listener)
  /\ (disconnected = disconnected -> _isConnected (this with_throwing_listener) = true ->
      fst (__customClose false with_throwing_listener) = Throw (ListenerError 0)
      /\ _isConnected (this (snd (__customClose false with_throwing_listener))) = false
      /\ nextPromise (rt (snd (__customClose false with_throwing_listener)))
         = nextPromise (rt with_throwing_listener)
      /\ nextTimer (rt (snd (__customClose false with_throwing_listener)))
         = nextTimer (rt with_throwing_listener)
      /\ closeCalls (rt (snd (__customClose false with_throwing_listener)))
         = closeCalls (rt with_throwing_listener))
  /\ (disconnected = connected -> _isConnected (this with_throwing_listener) = false ->
      fst (__customOpen with_throwing_listener) = Throw (ListenerError 0)
      /\ _isConnected (this (snd (__customOpen with_throwing_listener))) = true).
Proof.
  apply (listener_throw_ends_emission with_throwing_listener disconnected NoArg
           [] [{| lid := 1; throws := false |}] {| lid := 0; throws := true |} false).
  - vm_compute. reflexivity.
  - constructor.
  - reflexivity.
Defined.

(** C9 fails as stated: the socket of the connection above closes; the
    first listener of [disconnected] throws, the second one is not invoked,
    and no retry interval exists afterwards: nothing reconnects. *)
Lemma throwing_listener_stops_reconnect :
  log (rt (step (WsClose 0%nat) with_throwing_listener))
  = [Emitted connected NoArg; Emitted disconnected NoArg; Invoked disconnected 0]
  /\ _isConnected (this (step (WsClose 0%nat) with_throwing_listener)) = false
  /\ map_to_list (timers (rt (step (WsClose 0%nat) with_throwing_listener))) = []
  /\ opens (run [Tick 0%nat 300; Tick 1%nat 300; Tick 2%nat 300; Tick 3%nat 300]
              (step (WsClose 0%nat) with_throwing_listener)) = 1%nat.
Proof. vm_compute. done. Qed.

(** A second [connect] on [established]; afterwards all intervals tick, a
    block arrives and [waitConnection] is called and resolved. *)
Lemma connect_when_connected_never_resolves_witness :
  fst (connect established) = Normal (nextPromise (rt established))
  /\ step CallConnect established = snd (connect established)
  /\ opens (step CallConnect established) = opens established
  /\ timers (rt (step CallConnect established)) = timers (rt established)
  /\ nextPromise (rt established)
     ∉ resolved (rt (run [Tick 0%nat 300; Tick 1%nat 300; Tick 2%nat 300;
                           ProviderBlock 0%nat 18; CallWaitConnection; Tick 3%nat 400]
                      (step CallConnect established))).
Proof.
  apply (connect_when_connected_never_resolves established).
  - exact established_reachable.
  - vm_compute. reflexivity.
Defined.

(** In [connecting] the interval 1 polls the attempt on socket 0. *)
Lemma second_connect_starts_concurrent_attempt_witness :
  opens (run [CallConnect; Tick (nextTimer (rt connecting)) 200] connecting)
  = S (opens connecting)
  /\ timers (rt (run [CallConnect; Tick (nextTimer (rt connecting)) 200] connecting)) !! 1%nat
     = Some (AttemptPoll 0%nat 0%nat)
  /\ timers (rt (run [CallConnect; Tick (nextTimer (rt connecting)) 200] connecting))
       !! S (nextTimer (rt connecting))
     = Some (AttemptPoll (nextTimer (rt connecting)) (nextPromise (rt connecting)))
  /\ 1%nat <> S (nextTimer (rt connecting))
  /\ resolved (rt (run [CallConnect; Tick (nextTimer (rt connecting)) 200] connecting))
     = resolved (rt connecting).
Proof.
  apply (second_connect_starts_concurrent_attempt connecting 1%nat 0%nat 0%nat 200
           "ws://node:8546" "ws://node:8546").
  - unfold connecting. apply reachable_run. constructor.
  - vm_compute. reflexivity.
  - vm_compute. reflexivity.
  - vm_compute. reflexivity.
  - vm_compute. reflexivity.
Defined.

(** The execution of the two calls: [connecting] has one unresolved attempt
    and the key is free; the second [connect] installs the interval 2, whose
    first tick constructs a second provider, so that two attempts are
    outstanding and no promise is resolved.  The same happens without a
    second call, when the interval of the first [connect] ticks again. *)
Example two_attempts_at_once :
  opens connecting = 1%nat
  /\ outstanding_attempts connecting = 1%nat
  /\ _isConnected (this connecting) = false
  /\ lock (this connecting) = None
  /\ timers (rt (step CallConnect connecting)) !! 2%nat = Some (ConnectRetry 1%nat)
  /\ opens (run [CallConnect; Tick 2%nat 200] connecting) = 2%nat
  /\ outstanding_attempts (run [CallConnect; Tick 2%nat 200] connecting) = 2%nat
  /\ elements (resolved (rt (run [CallConnect; Tick 2%nat 200] connecting))) = []
  /\ opens (run [Tick 0%nat 200] connecting) = 2%nat
  /\ outstanding_attempts (run [Tick 0%nat 200] connecting) = 2%nat.
Proof. vm_compute. done. Qed.

(** On the freshly constructed object, which never connected,
    [waitConnection] is resolved after one tick. *)
Example waitConnection_resolves_disconnected :
  isConnected {| WebSocket := Some OPEN |} constructed = Normal false
  /\ elements (resolved (rt (run [CallWaitConnection; Tick 0%nat 100] constructed))) = [0%nat]
  /\ isConnected {| WebSocket := Some OPEN |}
       (run [CallWaitConnection; Tick 0%nat 100] constructed) = Normal false.
Proof. vm_compute. done. Qed.

Lemma connected_once_per_open_witness :
  _isConnected (this (run [WsOpen 0%nat; Tick 1%nat 200; ProviderBlock 0%nat 17]
                        (step (WsOpen 0%nat) connecting))) = true
  /\ emissions connected (run [WsOpen 0%nat; Tick 1%nat 200; ProviderBlock 0%nat 17]
                            (step (WsOpen 0%nat) connecting))
     = S (emissions connected connecting)
  /\ step (WsOpen 0%nat) (run [WsOpen 0%nat; Tick 1%nat 200; ProviderBlock 0%nat 17]
                            (step (WsOpen 0%nat) connecting))
     = run [WsOpen 0%nat; Tick 1%nat 200; ProviderBlock 0%nat 17]
         (step (WsOpen 0%nat) connecting).
Proof.
  apply (connected_once_per_open connecting 0%nat 0%nat
           [WsOpen 0%nat; Tick 1%nat 200; ProviderBlock 0%nat 17]).
  - vm_compute. reflexivity.
  - vm_compute. lia.
  - vm_compute. reflexivity.
Defined.

Lemma connected_disconnected_alternate_witness :
  emissions connected (step (WsError 0%nat) established)
  = (emissions disconnected (step (WsError 0%nat) established)
     + if _isConnected (this (step (WsError 0%nat) established)) then 1 else 0)%nat.
Proof.
  apply (connected_disconnected_alternate (step (WsError 0%nat) established)).
  constructor. exact established_reachable.
Defined.

Lemma getProvider_is_latest_witness :
  getProvider (run [Tick 0%nat 200] connecting)
  = match opens (run [Tick 0%nat 200] connecting) with O => None | S n => Some n end.
Proof.
  apply (getProvider_is_latest (run [Tick 0%nat 200] connecting)).
  unfold connecting. repeat apply reachable_run. constructor.
Defined.


(** The object was never initialised, and the object was initialised with
    an address that is not a URL of a socket. *)
Lemma retry_tick_rejected_address_witness :
  task (Tick 0%nat 100) (run [CallConnect] constructed)
  = (Throw TypeError,
     on_this (fun r => with_lastTransaction None (with_lastConnectionResponse 0 r))
       (run [CallConnect] constructed)).
Proof.
  apply (retry_tick_rejected_address (run [CallConnect] constructed) 0%nat 0%nat 100 TypeError).
  - vm_compute. reflexivity.
  - vm_compute. reflexivity.
Defined.

Lemma retry_tick_malformed_address :
  fst (task (Tick 0%nat 100) (run [CallInit "not a url" 5000; CallConnect] constructed))
  = Throw SyntaxError
  /\ getProvider
       (run [CallInit "not a url" 5000; CallConnect; Tick 0%nat 100] constructed) = None
  /\ opens (run [CallInit "not a url" 5000; CallConnect; Tick 0%nat 100] constructed) = 0%nat
  /\ timers (rt (run [CallInit "not a url" 5000; CallConnect; Tick 0%nat 100] constructed))
     = {[ 0%nat := ConnectRetry 0%nat ]}.
Proof. vm_compute. repeat split; reflexivity. Qed.

(** With the empty address the library connects to its default URL. *)
Lemma retry_tick_empty_address :
  sockets (rt (run [CallInit "" 5000; CallConnect; Tick 0%nat 100] constructed))
  = [{| sock_uri := Some "http://localhost:8545"; readyState := CONNECTING |}].
Proof. vm_compute. reflexivity. Qed.

Lemma keepAlive_active_iff_connected_witness :
  ((exists k, timers (rt established) !! k = Some KeepAlive)
   <-> _isConnected (this established) = true)
  /\ (timers (rt established) !! 2%nat = Some KeepAlive ->
      timers (rt established) !! 2%nat = Some KeepAlive -> 2%nat = 2%nat).
Proof.
  apply (keepAlive_active_iff_connected established 2%nat 2%nat).
  exact established_reachable.
Defined.

Lemma keepAlive_threshold_witness :
  exists h,
    getProvider after_pending = Some h
    /\ step (Tick 2%nat 7000) after_pending
       = if match MAX_TIMEOUT (this after_pending) with
            | Some m => 7000 - 1000 <? m
            | None => false
            end
         then after_pending else close_requested h after_pending.
Proof.
  apply (keepAlive_threshold after_pending 2%nat 1000 7000).
  - unfold after_pending. apply reachable_run. exact established_reachable.
  - vm_compute. reflexivity.
  - vm_compute. reflexivity.
Defined.

(** The object was initialised and nothing else has happened. *)
Lemma connect_resolves_after_open_witness :
  nextPromise (rt initialised)
    ∈ resolved (rt (run [CallConnect; Tick (nextTimer (rt initialised)) 400;
                         WsOpen (opens initialised);
                         Tick (S (nextTimer (rt initialised))) 500]
                      initialised))
  /\ _isConnected
       (this (run [CallConnect; Tick (nextTimer (rt initialised)) 400;
                   WsOpen (opens initialised);
                   Tick (S (nextTimer (rt initialised))) 500]
                initialised)) = true
  /\ timers (rt (run [CallConnect; Tick (nextTimer (rt initialised)) 400;
                      WsOpen (opens initialised);
                      Tick (S (nextTimer (rt initialised))) 500]
                   initialised))
       !! nextTimer (rt initialised) = None
  /\ timers (rt (run [CallConnect; Tick (nextTimer (rt initialised)) 400;
                      WsOpen (opens initialised);
                      Tick (S (nextTimer (rt initialised))) 500]
                   initialised))
       !! S (nextTimer (rt initialised)) = None
  /\ timers (rt (run [CallConnect; Tick (nextTimer (rt initialised)) 400;
                      WsOpen (opens initialised);
                      Tick (S (nextTimer (rt initialised))) 500]
                   initialised))
       !! S (S (nextTimer (rt initialised))) = Some KeepAlive
  /\ getProvider (run [CallConnect; Tick (nextTimer (rt initialised)) 400;
                       WsOpen (opens initialised);
                       Tick (S (nextTimer (rt initialised))) 500]
                    initialised)
     = Some (opens initialised)
  /\ emissions connected
       (run [CallConnect; Tick (nextTimer (rt initialised)) 400;
             WsOpen (opens initialised);
             Tick (S (nextTimer (rt initialised))) 500]
          initialised)
     = S (emissions connected initialised).
Proof.
  apply (connect_resolves_after_open initialised 400 500
           "ws://node:8546" "ws://node:8546").
  - unfold initialised. apply reachable_run. constructor.
  - vm_compute. reflexivity.
  - vm_compute. reflexivity.
  - vm_compute. reflexivity.
Defined.

(** Two ticks of [connect], with an [error] and a [close] of the first
    socket in between. *)
Lemma nothing_settles_without_open_witness :
  never_opened
    (run [CallInit "ws://node:8546" 5000; CallConnect; Tick 0%nat 100; WsError 0%nat;
          WsClose 0%nat; Tick 1%nat 200; Tick 0%nat 200; ProviderBlock 1%nat 17]
       constructed).
Proof.
  apply (nothing_settles_without_open
           [CallInit "ws://node:8546" 5000; CallConnect; Tick 0%nat 100; WsError 0%nat;
            WsClose 0%nat; Tick 1%nat 200; Tick 0%nat 200; ProviderBlock 1%nat 17]).
  vm_compute. reflexivity.
Defined.

Lemma waitConnection_clears_its_interval_witness :
  timers (rt (run [CallWaitConnection; Tick (nextTimer (rt established)) 300] established))
  = timers (rt established)
  /\ this (run [CallWaitConnection; Tick (nextTimer (rt established)) 300] established)
     = this established
  /\ resolved (rt (run [CallWaitConnection; Tick (nextTimer (rt established)) 300] established))
     = {[nextPromise (rt established)]} ∪ resolved (rt established)
  /\ step (Tick (nextTimer (rt established)) 400)
       (run [CallWaitConnection; Tick (nextTimer (rt established)) 300] established)
     = run [CallWaitConnection; Tick (nextTimer (rt established)) 300] established.
Proof.
  apply (waitConnection_clears_its_interval established 300 400).
  exact established_reachable.
Defined.

Lemma retry_interval_opens_every_tick_witness :
  opens (run (Tick 0%nat <$> [200; 300; 400]) connecting)
  = (opens connecting + length [200; 300; 400])%nat
  /\ timers (rt (run (Tick 0%nat <$> [200; 300; 400]) connecting)) !! 0%nat
     = Some (ConnectRetry 0%nat)
  /\ closeCalls (rt (run (Tick 0%nat <$> [200; 300; 400]) connecting))
     = closeCalls (rt connecting)
  /\ resolved (rt (run (Tick 0%nat <$> [200; 300; 400]) connecting))
     = resolved (rt connecting).
Proof.
  apply (retry_interval_opens_every_tick connecting 0%nat 0%nat [200; 300; 400]
           "ws://node:8546" "ws://node:8546").
  - unfold connecting. apply reachable_run. constructor.
  - vm_compute. reflexivity.
  - vm_compute. reflexivity.
  - vm_compute. reflexivity.
Defined.

(** [established] in an environment without the global [WebSocket]. *)
Lemma isConnected_without_global_witness :
  isConnected {| WebSocket := None |} established
  = if _isConnected (this established) then Throw ReferenceError else Normal false.
Proof.
  apply (isConnected_without_global {| WebSocket := None |} established).
  - exact established_reachable.
  - reflexivity.
Defined.

(** A second [connect] while the first attempt of [connecting] is pending. *)
Lemma connect_installs_retry_witness :
  timers (rt (step CallConnect connecting)) !! nextTimer (rt connecting)
  = Some (ConnectRetry (nextPromise (rt connecting)))
  /\ lock (this (step CallConnect connecting)) = None.
Proof.
  apply (connect_installs_retry connecting).
  - unfold connecting. apply reachable_run. constructor.
  - vm_compute. reflexivity.
Defined.

Lemma address_used_by_every_attempt_witness :
  getUri (run [CallConnect; Tick 0%nat 100; Tick 0%nat 200] initialised) = getUri initialised
  /\ (getUri initialised = None ->
      opens (run [CallConnect; Tick 0%nat 100; Tick 0%nat 200] initialised) = opens initialised)
  /\ (forall i ws, (opens initialised <= i)%nat ->
        sockets (rt (run [CallConnect; Tick 0%nat 100; Tick 0%nat 200] initialised)) !! i
        = Some ws ->
        exists address,
          getUri initialised = Some address /\ socket_url address = sock_uri ws).
Proof.
  apply (address_used_by_every_attempt initialised
           [CallConnect; Tick 0%nat 100; Tick 0%nat 200]).
  vm_compute. reflexivity.
Defined.

(** Socket 0 of [established] closes. *)
Lemma drop_then_reconnect_witness :
  _isConnected
    (this (run [WsClose 0%nat; Tick (nextTimer (rt established)) 300; WsOpen (opens established)]
             established)) = true
  /\ getProvider (run [WsClose 0%nat; Tick (nextTimer (rt established)) 300;
                       WsOpen (opens established)] established)
     = Some (opens established)
  /\ _lastTransaction
       (this (run [WsClose 0%nat; Tick (nextTimer (rt established)) 300;
                   WsOpen (opens established)] established))
     = None
  /\ timers (rt (run [WsClose 0%nat; Tick (nextTimer (rt established)) 300;
                      WsOpen (opens established)] established))
       !! S (S (nextTimer (rt established))) = Some KeepAlive
  /\ emissions disconnected
       (run [WsClose 0%nat; Tick (nextTimer (rt established)) 300; WsOpen (opens established)]
          established)
     = S (emissions disconnected established)
  /\ emissions connected
       (run [WsClose 0%nat; Tick (nextTimer (rt established)) 300; WsOpen (opens established)]
          established)
     = S (emissions connected established).
Proof.
  apply (drop_then_reconnect established 0%nat 300 "ws://node:8546" "ws://node:8546").
  - exact established_reachable.
  - vm_compute. reflexivity.
  - vm_compute. lia.
  - vm_compute. constructor.
  - vm_compute. reflexivity.
  - vm_compute. reflexivity.
Defined.

(** Socket 0 of [established] gives [error]; the retry interval 3 of the
    reconnection constructs the provider 1, whose socket opens; then socket
    0 gives [close]. *)
Lemma late_drop_signal_emits_disconnected_again_witness :
  _isConnected
    (this (run [WsError 0%nat; Tick (nextTimer (rt established)) 300;
                WsOpen (opens established)] established)) = true
  /\ emissions disconnected
       (run [WsError 0%nat; Tick (nextTimer (rt established)) 300;
             WsOpen (opens established); WsClose 0%nat] established)
     = S (S (emissions disconnected established))
  /\ _isConnected
       (this (run [WsError 0%nat; Tick (nextTimer (rt established)) 300;
                   WsOpen (opens established); WsClose 0%nat] established)) = false.
Proof.
  apply (late_drop_signal_emits_disconnected_again established 0%nat
           (WsError 0%nat) (WsClose 0%nat) 300 "ws://node:8546" "ws://node:8546").
  - exact established_reachable.
  - vm_compute. reflexivity.
  - vm_compute. lia.
  - left. reflexivity.
  - right. reflexivity.
  - vm_compute. constructor.
  - vm_compute. reflexivity.
  - vm_compute. reflexivity.
Defined.
